(** * Permit analysis dashboard: a shallow embedding of [main.py]

    The development follows the script top to bottom: text primitives used
    by the pandas string accessors, the credential store and the session
    state, the filter stage, the summary (pivot) table and the plant-wise
    summary.

    Modelling conventions.
    - A spreadsheet cell of a text column is [option string]: [None] is the
      missing value (NaN).  Strings are sequences of 7-bit ASCII characters;
      [str_upper] and [str_strip] act on that range and leave other bytes
      alone.
    - A data frame is the list of its rows, in row order.  A boolean mask
      [df[mask]] is [List.filter].
    - [Series.str] exists on text columns only.  A column of the sheet in
      which every cell is empty is read as float64, and the accessor then
      raises [AttributeError]; [plant_rows] has that outcome for the
      Responsibility Areas column.  [Closed] and [upper_department] describe
      the Workflow State and Department columns of a sheet that has text in
      them.
    - A Python [dict] keyed by strings is a [gmap string _]. *)

From Stdlib Require Import ZArith List Ascii String Bool Lia.
From Stdlib Require Sorted OrderedTypeEx.
From stdpp Require Import gmap strings list fin_maps.
Import ListNotations.

Local Open Scope string_scope.
Local Open Scope Z_scope.

(** ** Text primitives *)

Module Text.

Definition code (c : ascii) : N := N_of_ascii c.

(** [str.upper()] on one ASCII character. *)
Definition upper_ascii (c : ascii) : ascii :=
  if ((97 <=? code c) && (code c <=? 122))%N
  then ascii_of_N (code c - 32)
  else c.

(** [str.lower()] on one ASCII character. *)
Definition lower_ascii (c : ascii) : ascii :=
  if ((65 <=? code c) && (code c <=? 90))%N
  then ascii_of_N (code c + 32)
  else c.

Fixpoint str_lower (s : string) : string :=
  match s with
  | EmptyString => EmptyString
  | String c s' => String (lower_ascii c) (str_lower s')
  end.

Fixpoint str_upper (s : string) : string :=
  match s with
  | EmptyString => EmptyString
  | String c s' => String (upper_ascii c) (str_upper s')
  end.

(** Python's [str.isspace] on the ASCII range: TAB, LF, VT, FF, CR,
    the four separators FS, GS, RS, US and the blank. *)
Definition is_space (c : ascii) : bool :=
  (((9 <=? code c) && (code c <=? 13))
   || ((28 <=? code c) && (code c <=? 32)))%N.

Fixpoint str_lstrip (s : string) : string :=
  match s with
  | EmptyString => EmptyString
  | String c s' => if is_space c then str_lstrip s' else s
  end.

Fixpoint str_rstrip (s : string) : string :=
  match s with
  | EmptyString => EmptyString
  | String c s' =>
      match str_rstrip s' with
      | EmptyString => if is_space c then EmptyString else String c EmptyString
      | t => String c t
      end
  end.

(** [str.strip()] with no argument. *)
Definition str_strip (s : string) : string := str_rstrip (str_lstrip s).

(** [str.startswith(p)]. *)
Definition startswith (p s : string) : bool := String.prefix p s.

(** [str(x)] of a cell: the text itself, or ["nan"] for a missing value. *)
Definition str_of_cell (x : option string) : string :=
  match x with
  | Some s => s
  | None => "nan"
  end.

End Text.

(** ** Regular expressions, as far as the script uses them

    [Series.str.contains(pat)] compiles [pat] with Python's [re] (the
    [regex] argument defaults to [True]) and keeps the rows where
    [re.search] finds a match.  The patterns of the script are made of
    ordinary characters and parentheses, so the abstract syntax below has
    literals, concatenation and groups.  Any other metacharacter is outside
    this fragment and [re_compile] answers [None]; that also covers the
    patterns [re] rejects (unbalanced parentheses). *)

Module Re.

Inductive regex : Type :=
| Eps : regex
| Chr : ascii -> regex
| Cat : regex -> regex -> regex
| Grp : regex -> regex.

Definition is_meta (c : ascii) : bool :=
  existsb (Ascii.eqb c)
    (list_ascii_of_string ".^$*+?{}[]\|").

(** One pass over the pattern with a stack of the sequences that are open:
    [cur] is the innermost open sequence, [stack] the enclosing ones. *)
Fixpoint parse (p : string) (cur : regex) (stack : list regex) : option regex :=
  match p with
  | EmptyString =>
      match stack with
      | [] => Some cur
      | _ :: _ => None
      end
  | String c p' =>
      if Ascii.eqb c "("%char then parse p' Eps (cur :: stack)
      else if Ascii.eqb c ")"%char then
        match stack with
        | [] => None
        | outer :: stack' => parse p' (Cat outer (Grp cur)) stack'
        end
      else if is_meta c then None
      else parse p' (Cat cur (Chr c)) stack
  end.

Definition re_compile (p : string) : option regex := parse p Eps [].

Definition chr_eq (ignorecase : bool) (a b : ascii) : bool :=
  if ignorecase
  then Ascii.eqb (Text.lower_ascii a) (Text.lower_ascii b)
  else Ascii.eqb a b.

(** [match_at r s] is the rest of [s] after a match of [r] at its start.
    Without alternation or repetition there is at most one. *)
Fixpoint match_at (ignorecase : bool) (r : regex) (s : string) : option string :=
  match r with
  | Eps => Some s
  | Chr c =>
      match s with
      | String d s' => if chr_eq ignorecase c d then Some s' else None
      | EmptyString => None
      end
  | Cat r1 r2 =>
      match match_at ignorecase r1 s with
      | Some s' => match_at ignorecase r2 s'
      | None => None
      end
  | Grp r1 => match_at ignorecase r1 s
  end.

(** [re.search]: a match at some position. *)
Fixpoint search (ignorecase : bool) (r : regex) (s : string) : bool :=
  match match_at ignorecase r s with
  | Some _ => true
  | None =>
      match s with
      | EmptyString => false
      | String _ s' => search ignorecase r s'
      end
  end.

(** [Series.str.contains(pat, case=..., na=False)]: the mask on cells, a
    missing cell giving [False]; [None] when the pattern does not compile. *)
Definition str_contains (pat : string) (case : bool)
  : option (option string -> bool) :=
  match re_compile pat with
  | None => None
  | Some r =>
      Some (fun x => match x with
                     | Some s => search (negb case) r s
                     | None => false
                     end)
  end.

(** The text a pattern of this fragment stands for: its characters, the
    parentheses left out. *)
Fixpoint flatten (r : regex) : string :=
  match r with
  | Eps => EmptyString
  | Chr c => String c EmptyString
  | Cat r1 r2 => flatten r1 ++ flatten r2
  | Grp r1 => flatten r1
  end.

(** The pattern with its characters in lower case. *)
Fixpoint lower_regex (r : regex) : regex :=
  match r with
  | Eps => Eps
  | Chr c => Chr (Text.lower_ascii c)
  | Cat r1 r2 => Cat (lower_regex r1) (lower_regex r2)
  | Grp r1 => Grp (lower_regex r1)
  end.

(** The literal reading of "contains": [pat in s]. *)
Fixpoint has_substring (pat s : string) : bool :=
  if String.prefix pat s then true
  else match s with
       | EmptyString => false
       | String _ s' => has_substring pat s'
       end.

End Re.

(** ** Records of the uploaded sheet *)

(** One row of [df_raw] after line 258: [created_date] holds the result of
    [pd.to_datetime(..., errors='coerce')] in nanoseconds since the epoch,
    [None] being [NaT] (a missing date or one that failed to parse). *)
Record permit : Type := Permit {
  permit_number : option string;
  department : option string;
  responsibility_areas : option string;
  workflow_state : option string;
  created_date : option Z
}.

(** [Series.str.upper()]: missing stays missing. *)
Definition series_upper (x : option string) : option string :=
  match x with
  | Some s => Some (Text.str_upper s)
  | None => None
  end.

(** [series == "literal"]: a missing value compares unequal. *)
Definition series_eq (x : option string) (lit : string) : bool :=
  match x with
  | Some s => String.eqb s lit
  | None => false
  end.

(** Lines 254 and 381: [df["Workflow State"].str.upper() == "CLOSED"]. *)
Definition Closed (r : permit) : bool :=
  series_eq (series_upper (workflow_state r)) "CLOSED".

(** Lines 371-378, the lambda applied to Workflow State. *)
Definition Status (r : permit) : option string :=
  let x := Text.str_upper (Text.str_strip (Text.str_of_cell (workflow_state r))) in
  if String.eqb x "PENDING CLOSURE" then Some "PENDING CLOSURE"
  else if String.eqb x "EXPIRED" then Some "EXPIRED"
  else None.

(** The reading of the derived field with trimming, for comparison. *)
Definition trimmed_upper_state (r : permit) : option string :=
  match workflow_state r with
  | Some s => Some (Text.str_upper (Text.str_strip s))
  | None => None
  end.

(** ** Stand-ins for code that is not part of [main.py] *)

(** A digest used where an example needs a concrete one.  The development
    itself is parametric in [hashlib.sha256(...).hexdigest()]. *)
Definition digest_model (s : string) : string := "sha256:" ++ s.

(** Modelled from the spec: [utils.helpers.map_area] is imported by the
    script and absent from the sources.  The input is trimmed and read
    without regard to case; first match wins: a value starting with CPP or
    Power Plant is a CPP area; one starting with NCU or CCR, or containing
    CCR(Safety District-2), an NCU area; one starting with PP is PP; anything
    else, and a missing value, falls back to OTHERS. *)
Definition map_area_model (x : option string) : string :=
  match x with
  | None => "OTHERS"
  | Some s0 =>
      let s := Text.str_upper (Text.str_strip s0) in
      if Text.startswith "CPP" s || Text.startswith "POWER PLANT" s then "CPP"
      else if Text.startswith "NCU" s || Text.startswith "CCR" s
              || Re.has_substring "CCR(SAFETY DISTRICT-2)" s then "NCU"
      else if Text.startswith "PP" s then "PP"
      else "OTHERS"
  end.

(** ** Sample data for the examples *)

Definition sample_subset : list permit :=
  [ {| permit_number := Some "P-1"; department := Some "civil";
       responsibility_areas := Some "NCU-1"; workflow_state := Some "closed";
       created_date := Some (86400000000000 * 19700) |};
    {| permit_number := Some "P-2"; department := Some "Fire";
       responsibility_areas := Some "CPP boiler"; workflow_state := Some " expired ";
       created_date := Some (86400000000000 * 19701 + 37800000000000) |};
    {| permit_number := None; department := Some "CIVIL";
       responsibility_areas := Some "PP-2"; workflow_state := Some "CLOSED";
       created_date := None |};
    {| permit_number := Some "P-4"; department := None;
       responsibility_areas := Some "hdpe line 3";
       workflow_state := Some "Pending Closure";
       created_date := Some (86400000000000 * 19702) |};
    {| permit_number := Some "P-5"; department := Some "Mechanical";
       responsibility_areas := None; workflow_state := None;
       created_date := Some (86400000000000 * 19703) |} ].

(** ** Credential store and session state *)

Record user : Type := User {
  name : string;
  password_hash : string;
  role : option string
}.

(** [st.session_state.auth]. *)
Record auth_state : Type := Auth {
  authenticated : bool;
  username : option string;
  failed_attempts : Z;
  is_admin : bool;
  show_register : bool;
  user_added : bool;
  user_removed : bool
}.

(** The state a call can touch: the module-level [USERS] dictionary, the
    contents of [user_db.json] ([None] while the file does not exist) and
    the session's [auth] entry. *)
Record world : Type := World {
  USERS : gmap string user;
  user_db : option (gmap string user);
  auth : auth_state
}.

(** What the page shows. *)
Inductive message : Type :=
| st_error (s : string)
| st_success (s : string)
| st_warning (s : string).

(** How a call leaves the script run: it goes on, [st.rerun()] restarts
    it, [st.stop()] ends it. *)
Inductive control : Type := Continue | Rerun | Stop.

(** Lines 40-49 and the body of [logout]. *)
Definition fresh_auth : auth_state :=
  {| authenticated := false; username := None; failed_attempts := 0;
     is_admin := false; show_register := false;
     user_added := false; user_removed := false |}.

Definition set_show_register (b : bool) (a : auth_state) : auth_state :=
  {| authenticated := authenticated a; username := username a;
     failed_attempts := failed_attempts a; is_admin := is_admin a;
     show_register := b;
     user_added := user_added a; user_removed := user_removed a |}.

Definition set_user_added (b : bool) (a : auth_state) : auth_state :=
  {| authenticated := authenticated a; username := username a;
     failed_attempts := failed_attempts a; is_admin := is_admin a;
     show_register := show_register a;
     user_added := b; user_removed := user_removed a |}.

Definition set_user_removed (b : bool) (a : auth_state) : auth_state :=
  {| authenticated := authenticated a; username := username a;
     failed_attempts := failed_attempts a; is_admin := is_admin a;
     show_register := show_register a;
     user_added := user_added a; user_removed := b |}.

Definition set_failed_attempts (n : Z) (a : auth_state) : auth_state :=
  {| authenticated := authenticated a; username := username a;
     failed_attempts := n; is_admin := is_admin a;
     show_register := show_register a;
     user_added := user_added a; user_removed := user_removed a |}.

Definition set_auth (a : auth_state) (w : world) : world :=
  {| USERS := USERS w; user_db := user_db w; auth := a |}.

(** Python truthiness of a [str]. *)
Definition truthy (s : string) : bool := negb (String.eqb s EmptyString).

(** ** Columns as pandas types them, and calls that can raise *)

(** The dtype of a column whose cells are text or empty. *)
Inductive dtype : Type := object_dtype | float64_dtype.

Inductive exception : Type := AttributeError | re_error.

(** A call returns a value or raises. *)
Inductive outcome (A : Type) : Type :=
| Returned (a : A)
| Raised (e : exception).

Arguments Returned {A} a.
Arguments Raised {A} e.

Section Dashboard.

(** [lambda s: hashlib.sha256(s.encode()).hexdigest()]. *)
Variable sha256 : string -> string.

(** [utils.helpers.map_area], applied to a Responsibility Areas cell. *)
Variable map_area : option string -> string.

Definition load_users (file : option (gmap string user)) : gmap string user :=
  match file with
  | Some users => users
  | None =>
      {[ "admin" := {| name := "Administrator";
                       password_hash := sha256 "admin123";
                       role := Some "admin" |} ]}
  end.

Definition save_users (users : gmap string user) (w : world) : world :=
  {| USERS := USERS w; user_db := Some users; auth := auth w |}.

(** The state of a new session of a process started on [file]. *)
Definition start (file : option (gmap string user)) : world :=
  {| USERS := load_users file; user_db := file; auth := fresh_auth |}.

Definition register_user (uname fullname pwd urole : string) (w : world)
  : (bool * string) * world :=
  if bool_decide (uname ∈ dom (USERS w)) then
    ((false, "Username already exists!"), w)
  else if negb (truthy uname) || negb (truthy pwd) then
    ((false, "Username and password are required!"), w)
  else
    let users := <[ uname := {| name := fullname;
                                password_hash := sha256 pwd;
                                role := Some urole |} ]> (USERS w) in
    let w1 := {| USERS := users; user_db := user_db w; auth := auth w |} in
    let w2 := save_users users w1 in
    let w3 := set_auth (set_user_added true (auth w2)) w2 in
    ((true, "User " ++ uname ++ " registered successfully!"), w3).

Definition remove_user (uname : string) (w : world) : (bool * string) * world :=
  if negb (bool_decide (uname ∈ dom (USERS w))) then
    ((false, "User does not exist!"), w)
  else if String.eqb uname "admin" then
    ((false, "Cannot delete the admin user!"), w)
  else if bool_decide (Some uname = username (auth w)) then
    ((false, "Cannot delete your own account while logged in!"), w)
  else
    let users := delete uname (USERS w) in
    let w1 := {| USERS := users; user_db := user_db w; auth := auth w |} in
    let w2 := save_users users w1 in
    let w3 := set_auth (set_user_removed true (auth w2)) w2 in
    ((true, "User " ++ uname ++ " removed successfully!"), w3).

(** The [else] branch of [authenticate], lines 99-103. *)
Definition login_failed (w : world) : world * list message * control :=
  let n := failed_attempts (auth w) + 1 in
  let w' := set_auth (set_failed_attempts n (auth w)) w in
  if 3 <=? n then
    (w', [st_error "Too many failed attempts. Please try again later."], Stop)
  else
    (w', [st_error "Invalid username or password"], Continue).

(** Lines 84-103.  A stored user is a dictionary with keys, so [if user]
    asks whether the username is in the store. *)
Definition authenticate (uname pwd : string) (w : world)
  : world * list message * control :=
  match USERS w !! uname with
  | Some u =>
      if String.eqb (password_hash u) (sha256 pwd) then
        (set_auth {| authenticated := true;
                     username := Some uname;
                     failed_attempts := 0;
                     is_admin := String.eqb (default "user" (role u)) "admin";
                     show_register := false;
                     user_added := false;
                     user_removed := false |} w,
         [], Rerun)
      else login_failed w
  | None => login_failed w
  end.

Definition logout (w : world) : world * list message * control :=
  (set_auth fresh_auth w, [], Rerun).

(** What the visitor did to trigger the run of the script. *)
Inductive event : Type :=
| ClickLogin
| ClickRegister
| SubmitLogin (uname pwd : string)
| SubmitRegister (uname fullname pwd confirm : string).

(** [show_login], lines 118-157. *)
Definition show_login (e : event) (w : world) : world * list message * control :=
  let w1 :=
    match e with
    | ClickLogin => set_auth (set_show_register false (auth w)) w
    | ClickRegister => set_auth (set_show_register true (auth w)) w
    | _ => w
    end in
  if show_register (auth w1) then
    match e with
    | SubmitRegister uname fullname pwd confirm =>
        if negb (String.eqb pwd confirm) then
          (w1, [st_error "Passwords do not match!"], Continue)
        else
          let '((ok, msg), w2) := register_user uname fullname pwd "user" w1 in
          if ok then
            (set_auth (set_show_register false (auth w2)) w2,
             [st_success msg], Continue)
          else (w2, [st_error msg], Continue)
    | _ => (w1, [], Continue)
    end
  else
    match e with
    | SubmitLogin uname pwd => authenticate uname pwd w1
    | _ => (w1, [], Continue)
    end.

(** Lines 162-164: the login page stands in front of the dashboard. *)
Definition login_page (e : event) (w : world) : world * list message * control :=
  if negb (authenticated (auth w)) then
    let '(w', msgs, c) := show_login e w in
    (w', msgs, match c with Continue => Stop | _ => c end)
  else (w, [], Continue).

(** A session: one run of the script per event. *)
Definition run_session (es : list event) (w : world) : world :=
  fold_left (fun w e => fst (fst (login_page e w))) es w.

(** *** The dashboard, as far as it touches the session and the store *)

(** What a logged-in visitor did to trigger the run. *)
Inductive dash_event : Type :=
| ClickLogout
| SubmitAddUser (uname fullname pwd urole : string)
| SubmitRemoveUser (selection : option string)
| OtherWidget.

(** Lines 186-192: the two one-shot success notes. *)
Definition flash (w : world) : world * list message :=
  let '(w1, m1) :=
    if user_added (auth w)
    then (set_auth (set_user_added false (auth w)) w,
          [st_success "User successfully added!"])
    else (w, []) in
  let '(w2, m2) :=
    if user_removed (auth w1)
    then (set_auth (set_user_removed false (auth w1)) w1,
          [st_success "User successfully removed!"])
    else (w1, []) in
  (w2, (m1 ++ m2)%list).

(** Line 230: the accounts the remove form offers, as a set. *)
Definition removable_users (w : world) : gset string :=
  filter (fun u => u <> "admin" /\ Some u <> username (auth w)) (dom (USERS w)).

(** Line 235 on the selection of the form; with nothing to select the
    select box gives [None], which is not a key of the store. *)
Definition remove_selected (selection : option string) (w : world)
  : (bool * string) * world :=
  match selection with
  | Some uname => remove_user uname w
  | None => ((false, "User does not exist!"), w)
  end.

(** Lines 241-242, shown whenever the remove form is not. *)
Definition only_user_warning (w : world) : list message :=
  if (1 <? size (USERS w))%nat then []
  else [st_warning "Cannot remove the only remaining user"].

(** Lines 195-242: the user management of administrators. *)
Definition admin_panel (e : option dash_event) (w : world)
  : world * list message * control :=
  if is_admin (auth w) then
    match e with
    | Some (SubmitAddUser uname fullname pwd urole) =>
        let '((ok, msg), w') := register_user uname fullname pwd urole w in
        if ok then (w', [st_success msg], Rerun)
        else (w', (st_error msg :: only_user_warning w')%list, Continue)
    | Some (SubmitRemoveUser selection) =>
        if (1 <? size (USERS w))%nat then
          let '((ok, msg), w') := remove_selected selection w in
          if ok then (w', [st_success msg], Rerun)
          else (w', [st_error msg], Continue)
        else (w, only_user_warning w, Continue)
    | _ => (w, only_user_warning w, Continue)
    end
  else (w, [], Continue).

(** Lines 181-242. *)
Definition dashboard (e : option dash_event) (w : world)
  : world * list message * control :=
  match e with
  | Some ClickLogout => logout w
  | _ =>
      let '(w1, m1) := flash w in
      let '(w2, m2, c) := admin_panel e w1 in
      (w2, (m1 ++ m2)%list, c)
  end.

Inductive page_event : Type :=
| OnLogin (e : event)
| OnDashboard (e : dash_event).

(** Lines 36-37: every run of the script starts by loading the store. *)
Definition reload (w : world) : world :=
  {| USERS := load_users (user_db w); user_db := user_db w; auth := auth w |}.

(** One run of the script.  An event of a page that is not shown cannot
    occur and counts as none; [None] is a run that nothing was submitted
    to, such as the run [st.rerun()] asks for. *)
Definition script (e : option page_event) (w0 : world)
  : world * list message * control :=
  let w := reload w0 in
  if negb (authenticated (auth w)) then
    match e with
    | Some (OnLogin ev) => login_page ev w
    | _ => (w, [], Stop)
    end
  else
    match e with
    | Some (OnDashboard ev) => dashboard (Some ev) w
    | _ => dashboard None w
    end.

(** An event with the rerun it may ask for. *)
Definition interaction (e : page_event) (w : world) : world * list message :=
  let '(w1, m1, c1) := script (Some e) w in
  match c1 with
  | Rerun => let '(w2, m2, _) := script None w1 in (w2, m2)
  | _ => (w1, m1)
  end.

Definition session (es : list page_event) (w : world) : world :=
  fold_left (fun w e => fst (interaction e w)) es w.

(** ** Filter stage *)

(** Nanoseconds in a day: [pd.to_datetime] of a [datetime.date] is the
    timestamp of its midnight. *)
Definition day_ns : Z := 86400000000000.

(** [pd.to_datetime(d)] for a [datetime.date] given as its day number. *)
Definition to_datetime (d : Z) : Z := d * day_ns.

(** [(df["Created Date"] >= lo) & (df["Created Date"] <= hi)]: every
    comparison with [NaT] is [False]. *)
Definition date_mask (lo hi : Z) (r : permit) : bool :=
  match created_date r with
  | Some t => (lo <=? t) && (t <=? hi)
  | None => false
  end.

(** Lines 268-271 and 280-283. *)
Definition date_filter (start_date end_date : Z) (df : list permit) : list permit :=
  List.filter (date_mask (to_datetime start_date) (to_datetime end_date)) df.

(** [Series.isin(values)]. *)
Definition isin (values : list string) (x : option string) : bool :=
  match x with
  | Some s => existsb (String.eqb s) values
  | None => false
  end.

(** [Series.unique()]: the distinct values in order of first appearance. *)
Fixpoint unique (l : list string) : list string :=
  match l with
  | [] => []
  | s :: l' => s :: List.filter (fun s' => negb (String.eqb s' s)) (unique l')
  end.

(** Line 300: [df["Department"].dropna().unique()], the choices of the
    department selector. *)
Definition department_options (df : list permit) : list string :=
  unique (omap department df).

(** Lines 303-304: a list is true when it is not empty. *)
Definition department_filter (departments : list string) (filtered_df : list permit)
  : list permit :=
  match departments with
  | [] => filtered_df
  | _ :: _ => List.filter (fun r => isin departments (department r)) filtered_df
  end.

(** Lines 257-304: [df] and [filtered_df].  [has_created_date] says whether
    the sheet has a Created Date column. *)
Definition filter_stage (has_created_date : bool)
  (global_range results_range : Z * Z) (departments : list string)
  (df_raw : list permit) : list permit * list permit :=
  let df :=
    if has_created_date
    then date_filter (fst global_range) (snd global_range) df_raw
    else df_raw in
  let filtered_df :=
    if has_created_date
    then date_filter (fst results_range) (snd results_range) df
    else df in
  (df, department_filter departments filtered_df).

(** ** Summary table *)

Definition dept_cols : list string :=
  ["CES ELECTRICAL"; "CIVIL"; "FIRE"; "HSEF"; "INSTRUMENTATION"; "MECHANICAL";
   "PROCESS"].

Definition all_columns : list string :=
  (dept_cols ++ ["EXPIRED"; "PENDING CLOSURE"; "CLOSED"])%list.

(** A row of [filtered_df] once it carries the Area column. *)
Record arow : Type := ARow {
  Area : string;
  base : permit
}.

(** Line 365: [filtered_df["Department"].str.upper()]. *)
Definition upper_department (r : permit) : permit :=
  {| permit_number := permit_number r;
     department := series_upper (department r);
     responsibility_areas := responsibility_areas r;
     workflow_state := workflow_state r;
     created_date := created_date r |}.

(** Lines 363 and 365 on one row. *)
Definition with_area (r : permit) : arow :=
  {| Area := map_area (responsibility_areas r); base := upper_department r |}.

(** A frame indexed (or labelled, after [reset_index]) by Area with integer
    columns: the header of the label column, the names of the other columns
    and, per row, its label and its cells in column order. *)
Record table : Type := Table {
  header : string;
  columns : list string;
  rows : list (string * list Z)
}.

Fixpoint insert_unique (a : string) (l : list string) : list string :=
  match l with
  | [] => [a]
  | b :: l' =>
      match String.compare a b with
      | Lt => a :: l
      | Eq => l
      | Gt => b :: insert_unique a l'
      end
  end.

(** The sorted distinct keys of a [groupby] or of an index union. *)
Definition sort_unique (l : list string) : list string :=
  fold_right insert_unique [] l.

Definition sumZ (l : list Z) : Z := fold_right Z.add 0 l.

Definition count_if {A : Type} (p : A -> bool) (l : list A) : Z :=
  Z.of_nat (List.length (List.filter p l)).

Definition notna {A : Type} (x : option A) : bool :=
  match x with
  | Some _ => true
  | None => false
  end.

(** The cell of column [c] in a row whose cells [vals] follow [cols]. *)
Fixpoint get_cell (cols : list string) (vals : list Z) (c : string) : option Z :=
  match cols, vals with
  | k :: cols', v :: vals' =>
      if String.eqb k c then Some v else get_cell cols' vals' c
  | _, _ => None
  end.

(** [pd.pivot_table(filtered_df, index="Area", columns="Department",
    values="Permit Number", aggfunc="count", fill_value=0)]: the groups are
    the (Area, Department) pairs of the rows that have a Department, and a
    cell is the number of Permit Numbers present in its group. *)
Definition pivot_table (fdf : list arow) : table :=
  let grouped := List.filter (fun x => notna (department (base x))) fdf in
  let depts := sort_unique (omap (fun x => department (base x)) grouped) in
  {| header := "Area";
     columns := depts;
     rows :=
       map (fun a =>
              (a, map (fun d =>
                         count_if (fun x => String.eqb (Area x) a
                                            && series_eq (department (base x)) d
                                            && notna (permit_number (base x)))
                                  grouped)
                      depts))
           (sort_unique (map Area grouped)) |}.

(** [.reindex(columns=cols, fill_value=0)]. *)
Definition reindex (cols : list string) (t : table) : table :=
  {| header := header t;
     columns := cols;
     rows := map (fun r => (fst r,
                            map (fun c => default 0 (get_cell (columns t) (snd r) c))
                                cols))
                 (rows t) |}.

(** Lines 385-392. *)
Definition pivot (fdf : list arow) : table := reindex dept_cols (pivot_table fdf).

(** Line 394: the rows with a Status, counted by (Area, Status). *)
Definition status_counts (fdf : list arow) : table :=
  let classified := List.filter (fun x => notna (Status (base x))) fdf in
  let statuses := sort_unique (omap (fun x => Status (base x)) classified) in
  {| header := "Area";
     columns := statuses;
     rows :=
       map (fun a =>
              (a, map (fun s =>
                         count_if (fun x => String.eqb (Area x) a
                                            && series_eq (Status (base x)) s)
                                  classified)
                      statuses))
           (sort_unique (map Area classified)) |}.

(** Line 382: [filtered_df.groupby("Area")["Closed"].sum().astype(int)]. *)
Definition closed_counts (fdf : list arow) : list (string * Z) :=
  map (fun a => (a, count_if (fun x => String.eqb (Area x) a && Closed (base x)) fdf))
      (sort_unique (map Area fdf)).

(** The cells of the row labelled [a]; a label the frame does not have gives
    NaN cells, which [fillna(0)] turns into zeros. *)
Definition row_values (t : table) (a : string) : list Z :=
  match List.find (fun r => String.eqb (fst r) a) (rows t) with
  | Some r => snd r
  | None => map (fun _ => 0) (columns t)
  end.

(** [t.join(u, how="outer").fillna(0).astype(int)]. *)
Definition join_outer (t u : table) : table :=
  {| header := header t;
     columns := (columns t ++ columns u)%list;
     rows := map (fun a => (a, (row_values t a ++ row_values u a)%list))
                 (sort_unique (map fst (rows t) ++ map fst (rows u))%list) |}.

Fixpoint assoc (k : string) (l : list (string * Z)) : option Z :=
  match l with
  | [] => None
  | (k', v) :: l' => if String.eqb k' k then Some v else assoc k l'
  end.

(** [t.join(s, how="left")] for a series [s] named [col].  A label missing
    from [s] would give a NaN cell, which an integer table cannot hold:
    the result is then [None]. *)
Definition join_left (t : table) (col : string) (s : list (string * Z))
  : option table :=
  body ← mapM (fun r => v ← assoc (fst r) s; Some (fst r, (snd r ++ [v])%list)) (rows t);
  Some {| header := header t; columns := (columns t ++ [col])%list; rows := body |}.

Definition rename_column (old new : string) (t : table) : table :=
  {| header := header t;
     columns := map (fun c => if String.eqb c old then new else c) (columns t);
     rows := rows t |}.

(** Lines 402-404 for one [col]. *)
Definition ensure_column (col : string) (t : table) : table :=
  if existsb (String.eqb col) (header t :: columns t) then t
  else {| header := header t;
          columns := (columns t ++ [col])%list;
          rows := map (fun r => (fst r, (snd r ++ [0])%list)) (rows t) |}.

(** Lines 397-404: [final_table] before the TOTAL row. *)
Definition area_table (fdf : list arow) : option table :=
  t ← join_left (join_outer (pivot fdf) (status_counts fdf))
                "Closed" (closed_counts fdf);
  Some (fold_left (fun t col => ensure_column col t)
                  ["EXPIRED"; "PENDING CLOSURE"; "CLOSED"]
                  (rename_column "Closed" "CLOSED" t)).

(** [t[c]]: the cells of one column, a [KeyError] being [None]. *)
Definition column_values (t : table) (c : string) : option (list Z) :=
  mapM (fun r => get_cell (columns t) (snd r) c) (rows t).

(** Line 406: [final_table[all_columns].sum()], a series indexed by
    column name. *)
Definition total_row (t : table) : option (list (string * Z)) :=
  mapM (fun c => vs ← column_values t c; Some (c, sumZ vs)) all_columns.

(** Lines 407-408: the TOTAL row is appended, its cells placed under the
    columns of [t] by name.  A column of [t] without a total would hold NaN
    and gives [None]. *)
Definition append_total (t : table) : option table :=
  totals ← total_row t;
  cells ← mapM (fun c => assoc c totals) (columns t);
  Some {| header := header t;
          columns := columns t;
          rows := (rows t ++ [("TOTAL", cells)])%list |}.

(** Lines 397-410. *)
Definition final_table (fdf : list arow) : option table :=
  t ← area_table fdf;
  t' ← append_total t;
  Some {| header := "RESPONSIBILITY AREAS"; columns := columns t'; rows := rows t' |}.

(** Line 418: [final_table[["RESPONSIBILITY AREAS"] + selected_columns]]. *)
Definition select_columns (selected_columns : list string) (t : table)
  : option table :=
  body ← mapM (fun r => vals ← mapM (get_cell (columns t) (snd r)) selected_columns;
                        Some (fst r, vals))
              (rows t);
  Some {| header := header t; columns := selected_columns; rows := body |}.

(** The table shown for a working subset [filtered_df] (as it is after the
    department filter) and the chosen columns. *)
Definition display_table (filtered_df : list permit) (selected_columns : list string)
  : option table :=
  t ← final_table (map with_area filtered_df);
  select_columns selected_columns t.

(** ** Plant-wise summary *)

Definition plant_options : list string :=
  ["CPP"; "HDPE"; "HSEF"; "IOP ECR"; "IOP NCR"; "IOP SCR"; "LLDPE"; "NCAU";
   "NCU"; "IOP BAGGING"; "OTHERS"; "PP"].

(** [Series.str.startswith(p, na=False)]. *)
Definition startswith_na (p : string) (x : option string) : bool :=
  match x with
  | Some s => Text.startswith p s
  | None => false
  end.

(** [plant_df["Area"] = label]. *)
Definition set_area (label : string) (x : arow) : arow :=
  {| Area := label; base := base x |}.

Definition areas_of (x : arow) : option string := responsibility_areas (base x).

(** Lines 442-463 on a text column: the masks and the selection.  [None]
    stands for an exception raised while a mask is computed (a pattern that
    does not compile).  The accessor's own failure is in [plant_rows]. *)
Definition plant_df (selected_plant : string) (filtered_df : list arow)
  : option (list arow) :=
  if String.eqb selected_plant "CPP" then
    Some (map (set_area "CPP (Including Power Plant Areas)")
              (List.filter (fun x => startswith_na "CPP" (areas_of x)
                                     || startswith_na "Power Plant" (areas_of x))
                           filtered_df))
  else if String.eqb selected_plant "NCU" then
    contains ← Re.str_contains "CCR(Safety District-2)" true;
    Some (map (set_area "NCU (Including CCR Areas)")
              (List.filter (fun x => startswith_na "NCU" (areas_of x)
                                     || startswith_na "CCR" (areas_of x)
                                     || contains (areas_of x))
                           filtered_df))
  else if String.eqb selected_plant "PP" then
    Some (map (set_area "PP")
              (List.filter (fun x => startswith_na "PP" (areas_of x)) filtered_df))
  else
    contains ← Re.str_contains selected_plant false;
    Some (List.filter (fun x => contains (areas_of x)) filtered_df).

Definition pair_compare (p q : string * string) : comparison :=
  match String.compare (fst p) (fst q) with
  | Eq => String.compare (snd p) (snd q)
  | c => c
  end.

Fixpoint insert_unique_pair (a : string * string) (l : list (string * string))
  : list (string * string) :=
  match l with
  | [] => [a]
  | b :: l' =>
      match pair_compare a b with
      | Lt => a :: l
      | Eq => l
      | Gt => b :: insert_unique_pair a l'
      end
  end.

(** Line 468: [groupby(["Area", "Department"]).size()]; rows without a
    Department belong to no group. *)
Definition group_sizes (pdf : list arow) : list (string * string * Z) :=
  let keys :=
    fold_right insert_unique_pair []
      (omap (fun x => d ← department (base x); Some (Area x, d)) pdf) in
  map (fun k =>
         (fst k, snd k,
          count_if (fun x => String.eqb (Area x) (fst k)
                             && series_eq (department (base x)) (snd k))
                   pdf))
      keys.

(** Lines 465-474: nothing but a warning for an empty [plant_df], else the
    grouped counts followed by the TOTAL row. *)
Definition plantwise_summary (pdf : list arow) : option (list (string * string * Z)) :=
  match pdf with
  | [] => None
  | _ :: _ =>
      let groups := group_sizes pdf in
      Some (groups ++ [("TOTAL", EmptyString, sumZ (map snd groups))])%list
  end.

(** [pd.read_excel] on such a column: an empty cell is NaN; a column of
    nothing but NaN is float64, any text makes it object, and so is every
    column of a sheet without rows. *)
Definition read_dtype (cells : list (option string)) : dtype :=
  match cells with
  | [] => object_dtype
  | _ :: _ => if existsb notna cells then object_dtype else float64_dtype
  end.

(** Lines 442-463 on the frame as it is.  Every branch starts with
    [filtered_df["Responsibility Areas"].str], and [filtered_df] has the
    column with the dtype it was read with from the sheet [df_raw]: on a
    float64 column the accessor raises [AttributeError] before any mask is
    computed. *)
Definition plant_rows (df_raw : list permit) (selected_plant : string)
  (filtered_df : list arow) : outcome (list arow) :=
  match read_dtype (map responsibility_areas df_raw) with
  | float64_dtype => Raised AttributeError
  | object_dtype =>
      match plant_df selected_plant filtered_df with
      | Some pdf => Returned pdf
      | None => Raised re_error
      end
  end.

(** The login of a session: whether it is logged in, under which name and
    with which administrator flag. *)
Definition same_login (w w' : world) : Prop :=
  authenticated (auth w') = authenticated (auth w)
  /\ username (auth w') = username (auth w)
  /\ is_admin (auth w') = is_admin (auth w).

(** A restart of the process would load the store the process holds. *)
Definition store_synced (w : world) : Prop :=
  load_users (user_db w) = USERS w.

(** A logged-in session belongs to an account of the store and its
    administrator flag is that account's; a logged-out one has no name and
    no flag.  This is kept by the events of the session itself; the script
    never checks it again, and a write to the file from elsewhere can break
    it. *)
Definition login_consistent (w : world) : Prop :=
  (authenticated (auth w) = true ->
   exists uname u,
     username (auth w) = Some uname
     /\ USERS w !! uname = Some u
     /\ is_admin (auth w) = String.eqb (default "user" (role u)) "admin")
  /\ (authenticated (auth w) = false ->
      username (auth w) = None /\ is_admin (auth w) = false).

(** What the cells of the summary are compared with: the records of an
    Area under a department column (those with a Permit Number), with a
    Status, and Closed. *)
Definition department_count (fdf : list arow) (a c : string) : Z :=
  count_if (fun x => String.eqb (Area x) a
                     && series_eq (department (base x)) c
                     && notna (permit_number (base x)))
           fdf.

Definition status_count (fdf : list arow) (a s : string) : Z :=
  count_if (fun x => String.eqb (Area x) a && series_eq (Status (base x)) s) fdf.

Definition closed_count (fdf : list arow) (a : string) : Z :=
  count_if (fun x => String.eqb (Area x) a && Closed (base x)) fdf.

Definition summary_count (fdf : list arow) (a c : string) : Z :=
  if existsb (String.eqb c) dept_cols then department_count fdf a c
  else if String.eqb c "CLOSED" then closed_count fdf a
  else status_count fdf a c.

(** The Areas that get a row: those of the records with a Department and
    those of the records with a Status. *)
Definition summary_areas (fdf : list arow) : list string :=
  sort_unique (map fst (rows (pivot fdf)) ++ map fst (rows (status_counts fdf)))%list.

(** The reading of the default plant rule as a test on text: the plant's
    name occurs in the cell, letter case aside. *)
Definition contains_ignoring_case (p : string) (x : option string) : bool :=
  match x with
  | Some s => Re.has_substring (Text.str_lower p) (Text.str_lower s)
  | None => false
  end.

(** Every row has one cell per column. *)
Definition well_formed (t : table) : Prop :=
  forall r, In r (rows t) -> List.length (snd r) = List.length (columns t).

End Dashboard.

(** ** Sample sessions for the examples *)

(** The default store with one more user, bob, registered from the login
    page. *)
Definition sample_world : world :=
  snd (register_user digest_model "bob" "Bob" "pw1" "user"
                     (start digest_model None)).

(** The same with bob logged in. *)
Definition sample_world_bob : world :=
  fst (fst (authenticate digest_model "bob" "pw1" sample_world)).

(** ** Properties *)

(** *** Text *)

Lemma is_space_upper_fixed (c : ascii) :
  Text.is_space c = true -> Text.upper_ascii c = c.
Proof.
  destruct c as [b0 b1 b2 b3 b4 b5 b6 b7].
  destruct b0, b1, b2, b3, b4, b5, b6, b7; vm_compute; congruence.
Qed.

Lemma upper_letter_not_space (c d : ascii) :
  Text.upper_ascii c = d -> Text.is_space d = false -> Text.is_space c = false.
Proof.
  intros Hup Hd. destruct (Text.is_space c) eqn:Hc; [|reflexivity].
  rewrite (is_space_upper_fixed c Hc) in Hup. congruence.
Qed.

Lemma upper_CLOSED_has_no_padding (s : string) :
  Text.str_upper s = "CLOSED" -> Text.str_strip s = s.
Proof.
  intros H.
  destruct s as [|c1 [|c2 [|c3 [|c4 [|c5 [|c6 [|c7 s]]]]]]]; try discriminate H.
  cbn [Text.str_upper] in H. injection H as H1 H2 H3 H4 H5 H6.
  apply upper_letter_not_space in H1, H2, H3, H4, H5, H6; try reflexivity.
  unfold Text.str_strip. cbn [Text.str_lstrip]. rewrite H1.
  cbn [Text.str_rstrip]. rewrite H1, H2, H3, H4, H5, H6. reflexivity.
Qed.

(** C2, as the script computes the field.  Closed holds exactly for a
    present Workflow State whose upper-casing, with no trimming, is CLOSED.
    Such a state has no surrounding whitespace, so Closed implies that the
    trimmed and upper-cased state is CLOSED; the converse is what fails. *)
Theorem Closed_iff_upper_equals_CLOSED (r : permit) :
  (Closed r = true <->
   exists s, workflow_state r = Some s /\ Text.str_upper s = "CLOSED")
  /\ (Closed r = true -> trimmed_upper_state r = Some "CLOSED").
Proof.
  assert (Hiff : Closed r = true <->
                 exists s, workflow_state r = Some s /\ Text.str_upper s = "CLOSED").
  { unfold Closed, series_eq, series_upper.
    destruct (workflow_state r) as [s|]; split.
    - intros H. exists s. split; [reflexivity|]. now apply String.eqb_eq.
    - intros (s' & Hs & Hu). injection Hs as ->. now apply String.eqb_eq.
    - discriminate.
    - intros (s' & Hs & _). discriminate. }
  split; [exact Hiff|].
  intros H. apply Hiff in H. destruct H as (s & Hs & Hu).
  unfold trimmed_upper_state. rewrite Hs.
  rewrite (upper_CLOSED_has_no_padding s Hu). now rewrite Hu.
Qed.

(** *** Credential store and session *)

Lemma truthy_false_iff (s : string) : truthy s = false <-> s = EmptyString.
Proof.
  unfold truthy. rewrite negb_false_iff. apply String.eqb_eq.
Qed.

(** A failed attempt counts up and leaves the session logged out. *)
Lemma login_failed_counts (w : world) :
  let '(w', _, c) := login_failed w in
  failed_attempts (auth w') = failed_attempts (auth w) + 1
  /\ authenticated (auth w') = authenticated (auth w)
  /\ (c = Stop <-> 3 <= failed_attempts (auth w')).
Proof.
  unfold login_failed.
  destruct (3 <=? failed_attempts (auth w) + 1) eqn:H; cbn.
  - apply Z.leb_le in H. repeat split; auto.
  - apply Z.leb_gt in H. repeat split; auto; try discriminate. lia.
Qed.

Section SessionProperties.

Variable sha256 : string -> string.

(** C7.  [register_user] fails exactly when the username is already in the
    store, or the username is empty, or the password is empty.  A failure
    carries a message and leaves the dictionary, the file and the session as
    they were; a success adds the user to the dictionary and writes it. *)
Theorem register_user_fails_iff (uname fullname pwd urole : string) (w : world) :
  let '((ok, msg), w') := register_user sha256 uname fullname pwd urole w in
  (ok = false <->
   uname ∈ dom (USERS w) \/ uname = EmptyString \/ pwd = EmptyString)
  /\ (ok = false -> w' = w /\ msg <> EmptyString)
  /\ (ok = true ->
      USERS w !! uname = None
      /\ USERS w' !! uname = Some {| name := fullname;
                                    password_hash := sha256 pwd;
                                    role := Some urole |}
      /\ user_db w' = Some (USERS w')).
Proof.
  unfold register_user.
  destruct (bool_decide (uname ∈ dom (USERS w))) eqn:Hin.
  - apply bool_decide_eq_true in Hin.
    repeat split; try discriminate; auto.
  - apply bool_decide_eq_false in Hin.
    destruct (negb (truthy uname) || negb (truthy pwd)) eqn:Hempty.
    + repeat split; try discriminate; auto.
      intros _. right.
      apply orb_true_iff in Hempty.
      destruct Hempty as [H|H]; apply negb_true_iff, truthy_false_iff in H; auto.
    + apply orb_false_iff in Hempty. destruct Hempty as [Hu Hp].
      apply negb_false_iff in Hu, Hp.
      repeat split; try discriminate.
      * intros [H|[H|H]]; [contradiction| |].
        -- apply truthy_false_iff in H. congruence.
        -- apply truthy_false_iff in H. congruence.
      * apply not_elem_of_dom. exact Hin.
      * cbn. apply lookup_insert_eq.
Qed.

(** C9.  With a username of the store and a password whose digest is the
    stored hash, [authenticate] logs the session in, sets the failure counter
    to 0 whatever it was, leaves the store alone and asks for a rerun. *)
Theorem authenticate_matching_digest (uname pwd : string) (u : user) (w : world) :
  USERS w !! uname = Some u ->
  password_hash u = sha256 pwd ->
  exists w',
    authenticate sha256 uname pwd w = (w', [], Rerun)
    /\ authenticated (auth w') = true
    /\ failed_attempts (auth w') = 0
    /\ username (auth w') = Some uname
    /\ USERS w' = USERS w.
Proof.
  intros Hu Hh. unfold authenticate. rewrite Hu, Hh, String.eqb_refl.
  eexists. repeat split.
Qed.

(** A login attempt on the login form with a username the store does not
    have. *)
Lemma login_page_unknown_user (uname pwd : string) (w : world) :
  authenticated (auth w) = false ->
  show_register (auth w) = false ->
  USERS w !! uname = None ->
  login_page sha256 (SubmitLogin uname pwd) w
  = (set_auth (set_failed_attempts (failed_attempts (auth w) + 1) (auth w)) w,
     [st_error (if 3 <=? failed_attempts (auth w) + 1
                then "Too many failed attempts. Please try again later."
                else "Invalid username or password")],
     Stop).
Proof.
  intros Ha Hs Hu. unfold login_page, show_login, authenticate, login_failed.
  rewrite Ha. cbn [negb]. rewrite Hs, Hu.
  destruct (3 <=? failed_attempts (auth w) + 1); reflexivity.
Qed.

(** A login attempt on the login form with credentials of the store. *)
Lemma login_page_known_user (uname pwd : string) (u : user) (w : world) :
  authenticated (auth w) = false ->
  show_register (auth w) = false ->
  USERS w !! uname = Some u ->
  password_hash u = sha256 pwd ->
  login_page sha256 (SubmitLogin uname pwd) w
  = (set_auth {| authenticated := true;
                 username := Some uname;
                 failed_attempts := 0;
                 is_admin := String.eqb (default "user" (role u)) "admin";
                 show_register := false;
                 user_added := false;
                 user_removed := false |} w,
     [], Rerun).
Proof.
  intros Ha Hs Hu Hh. unfold login_page, show_login, authenticate.
  rewrite Ha. cbn [negb]. rewrite Hs, Hu, Hh, String.eqb_refl. reflexivity.
Qed.

(** C4, on the code.  In a fresh session on the default store three
    attempts with an unknown username bring the counter to 3, and the third
    run ends on the lockout message; the next attempt, with the
    administrator's credentials, logs the session in. *)
Theorem lockout_does_not_block_login :
  let w2 := run_session sha256
              [SubmitLogin "mallory" "guess"; SubmitLogin "mallory" "guess"]
              (start sha256 None) in
  let '(w3, msgs3, c3) := login_page sha256 (SubmitLogin "mallory" "guess") w2 in
  let '(w4, msgs4, c4) := login_page sha256 (SubmitLogin "admin" "admin123") w3 in
  failed_attempts (auth w3) = 3
  /\ msgs3 = [st_error "Too many failed attempts. Please try again later."]
  /\ c3 = Stop
  /\ authenticated (auth w3) = false
  /\ authenticated (auth w4) = true
  /\ failed_attempts (auth w4) = 0
  /\ c4 = Rerun.
Proof.
  cbn [run_session fold_left].
  rewrite (login_page_unknown_user "mallory" "guess" (start sha256 None))
    by reflexivity.
  cbn [fst].
  rewrite (login_page_unknown_user "mallory" "guess") by reflexivity.
  cbn [fst].
  rewrite (login_page_unknown_user "mallory" "guess") by reflexivity.
  erewrite (login_page_known_user "admin" "admin123") by reflexivity.
  repeat split.
Qed.

End SessionProperties.

(** *** Filter stage *)

(** C5.  The date filter keeps exactly the rows of the frame whose parsed
    Created Date lies between the timestamps of the two bounds, both
    included, and no row whose date is missing or failed to parse; it keeps
    them in order and creates none. *)
Theorem date_filter_keeps_inclusive_range
  (start_date end_date : Z) (df : list permit) :
  (forall r,
     In r (date_filter start_date end_date df) <->
     In r df /\ exists d, created_date r = Some d
                          /\ to_datetime start_date <= d <= to_datetime end_date)
  /\ (forall r, created_date r = None ->
                ~ In r (date_filter start_date end_date df))
  /\ sublist (date_filter start_date end_date df) df.
Proof.
  assert (Hmask : forall lo hi r,
             date_mask lo hi r = true <->
             exists d, created_date r = Some d /\ lo <= d <= hi).
  { intros lo hi r. unfold date_mask. destruct (created_date r) as [t|].
    - rewrite andb_true_iff, !Z.leb_le. split.
      + intros H. exists t. auto.
      + intros (d & Hd & H). injection Hd as ->. exact H.
    - split; [discriminate|]. intros (d & Hd & _). discriminate. }
  unfold date_filter. split; [|split].
  - intros r. rewrite filter_In, Hmask. reflexivity.
  - intros r Hnone H. apply filter_In in H. destruct H as [_ H].
    apply Hmask in H. destruct H as (d & Hd & _). congruence.
  - induction df as [|r df IH]; cbn; [constructor|].
    destruct (date_mask _ _ r); now constructor.
Qed.

Lemma isin_iff (values : list string) (x : option string) :
  isin values x = true <-> exists d, x = Some d /\ In d values.
Proof.
  unfold isin. destruct x as [s|].
  - rewrite existsb_exists. split.
    + intros (v & Hv & He). apply String.eqb_eq in He. subst v. eauto.
    + intros (d & Hd & Hin). injection Hd as ->. exists d.
      split; [exact Hin|apply String.eqb_refl].
  - split; [discriminate|]. intros (d & Hd & _). discriminate.
Qed.

(** C6.  With no department selected the filter returns the frame as it
    is; otherwise it keeps exactly the rows whose Department is, character
    for character, one of the selected values. *)
Theorem department_filter_empty_or_exact
  (departments : list string) (filtered_df : list permit) :
  (departments = [] -> department_filter departments filtered_df = filtered_df)
  /\ (departments <> [] ->
      forall r,
        In r (department_filter departments filtered_df) <->
        In r filtered_df
        /\ exists d, department r = Some d /\ In d departments).
Proof.
  split.
  - intros ->. reflexivity.
  - intros Hne r. destruct departments as [|d0 ds]; [contradiction|].
    cbn [department_filter]. rewrite filter_In, isin_iff. reflexivity.
Qed.

(** *** Plant-wise summary *)

Lemma append_cons (x : ascii) (a b : string) :
  String x a ++ b = String x (a ++ b).
Proof.
  reflexivity.
Qed.

Lemma append_assoc (a b c : string) : (a ++ b) ++ c = a ++ (b ++ c).
Proof.
  induction a as [|x a IH]; [reflexivity|].
  rewrite !append_cons. f_equal. exact IH.
Qed.

Lemma prefix_iff (p s : string) :
  String.prefix p s = true <-> exists t, s = p ++ t.
Proof.
  revert s. induction p as [|c p IH]; intros s.
  - destruct s; cbn; split; eauto.
  - destruct s as [|d s]; cbn.
    + split; [discriminate|]. intros (t & H). discriminate H.
    + destruct (ascii_dec c d) as [->|Hne].
      * rewrite IH. split; intros (t & H); exists t;
          rewrite append_cons in *; congruence.
      * split; [discriminate|]. intros (t & H).
        rewrite append_cons in H. congruence.
Qed.

(** A case-sensitive match consumes exactly the text of the pattern. *)
Lemma match_at_flatten (r : Re.regex) (s t : string) :
  Re.match_at false r s = Some t <-> s = Re.flatten r ++ t.
Proof.
  revert s t. induction r as [|c|r1 IH1 r2 IH2|r1 IH1]; intros s t; cbn.
  - change (EmptyString ++ t) with t. split; congruence.
  - change (String c EmptyString ++ t) with (String c t).
    destruct s as [|d s].
    + split; discriminate.
    + destruct (Ascii.eqb_spec c d) as [->|Hne].
      * split; congruence.
      * split; [discriminate|]. congruence.
  - rewrite append_assoc. split.
    + destruct (Re.match_at false r1 s) as [s'|] eqn:E; [|discriminate].
      intros H. apply IH1 in E. apply IH2 in H. congruence.
    + intros H. apply IH1 in H. rewrite H. now apply IH2.
  - apply IH1.
Qed.

(** A case-sensitive search is the substring test for that text. *)
Lemma search_flatten (r : Re.regex) (s : string) :
  Re.search false r s = Re.has_substring (Re.flatten r) s.
Proof.
  induction s as [|d s IH]; cbn [Re.search Re.has_substring].
  - destruct (Re.match_at false r EmptyString) as [t|] eqn:E.
    + apply match_at_flatten in E.
      assert (H : String.prefix (Re.flatten r) EmptyString = true)
        by (apply prefix_iff; eauto).
      now rewrite H.
    + destruct (String.prefix (Re.flatten r) EmptyString) eqn:H; [|reflexivity].
      apply prefix_iff in H. destruct H as (t & H).
      apply match_at_flatten in H. congruence.
  - destruct (Re.match_at false r (String d s)) as [t|] eqn:E.
    + apply match_at_flatten in E.
      assert (H : String.prefix (Re.flatten r) (String d s) = true)
        by (apply prefix_iff; eauto).
      now rewrite H.
    + destruct (String.prefix (Re.flatten r) (String d s)) eqn:H; [|exact IH].
      apply prefix_iff in H. destruct H as (t & H).
      apply match_at_flatten in H. congruence.
Qed.

(** The third mask of the NCU branch, on every cell: the pattern compiles,
    and a text is accepted when it contains CCRSafety District-2. *)
Lemma ncu_pattern_reads_parentheses_as_group :
  exists f,
    Re.str_contains "CCR(Safety District-2)" true = Some f
    /\ f None = false
    /\ forall s, f (Some s) = Re.has_substring "CCRSafety District-2" s.
Proof.
  unfold Re.str_contains.
  destruct (Re.re_compile "CCR(Safety District-2)") as [r|] eqn:E;
    [|vm_compute in E; discriminate].
  eexists. split; [reflexivity|]. split; [reflexivity|].
  intros s. cbn [negb]. rewrite search_flatten.
  vm_compute in E. injection E as <-. reflexivity.
Qed.

Lemma str_contains_na (pat : string) (case : bool) (f : option string -> bool) :
  Re.str_contains pat case = Some f -> f None = false.
Proof.
  unfold Re.str_contains. destruct (Re.re_compile pat); [|discriminate].
  intros H. injection H as <-. reflexivity.
Qed.

Lemma str_contains_plant_options (p : string) :
  In p plant_options -> exists f, Re.str_contains p false = Some f.
Proof.
  intros H. unfold Re.str_contains.
  destruct (Re.re_compile p) eqn:E; [eauto|].
  exfalso. unfold plant_options in H. cbn [In] in H.
  repeat (destruct H as [<-|H]; [vm_compute in E; discriminate|]).
  exact H.
Qed.

(** On a text column: for each plant of the selector the masks are
    computed, and the selection keeps only rows of the working subset and no
    row whose Responsibility Areas cell is missing. *)
Lemma plant_df_excludes_missing_areas
  (selected_plant : string) (filtered_df : list arow) :
  In selected_plant plant_options ->
  exists pdf,
    plant_df selected_plant filtered_df = Some pdf
    /\ (forall x, In x pdf -> areas_of x <> None)
    /\ (forall x, In x pdf ->
                  exists y, In y filtered_df /\ base x = base y).
Proof.
  intros Hopt. unfold plant_df.
  destruct (String.eqb selected_plant "CPP").
  { eexists. split; [reflexivity|]. split; intros x Hx;
      apply in_map_iff in Hx; destruct Hx as (y & <- & Hy);
      apply filter_In in Hy; destruct Hy as [Hin Hm].
    - unfold areas_of in *. cbn. destruct (responsibility_areas (base y));
        [discriminate|]. discriminate Hm.
    - exists y. auto. }
  destruct (String.eqb selected_plant "NCU").
  { destruct (Re.str_contains "CCR(Safety District-2)" true) as [f|] eqn:E;
      [|vm_compute in E; discriminate].
    pose proof (str_contains_na _ _ _ E) as Hna.
    eexists. split; [reflexivity|]. split; intros x Hx;
      apply in_map_iff in Hx; destruct Hx as (y & <- & Hy);
      apply filter_In in Hy; destruct Hy as [Hin Hm].
    - unfold areas_of in *. cbn. destruct (responsibility_areas (base y));
        [discriminate|]. cbn in Hm. rewrite Hna in Hm. discriminate Hm.
    - exists y. auto. }
  destruct (String.eqb selected_plant "PP").
  { eexists. split; [reflexivity|]. split; intros x Hx;
      apply in_map_iff in Hx; destruct Hx as (y & <- & Hy);
      apply filter_In in Hy; destruct Hy as [Hin Hm].
    - unfold areas_of in *. cbn. destruct (responsibility_areas (base y));
        [discriminate|]. discriminate Hm.
    - exists y. auto. }
  destruct (str_contains_plant_options _ Hopt) as [f E]. rewrite E.
  pose proof (str_contains_na _ _ _ E) as Hna.
  eexists. split; [reflexivity|]. split; intros x Hx;
    apply filter_In in Hx; destruct Hx as [Hin Hm].
  - intros Hnone. rewrite Hnone, Hna in Hm. discriminate Hm.
  - exists x. auto.
Qed.

Lemma read_dtype_with_text (cells : list (option string)) :
  (exists s, In (Some s) cells) -> read_dtype cells = object_dtype.
Proof.
  intros (s & Hs). unfold read_dtype. destruct cells as [|c cells]; [reflexivity|].
  assert (H : existsb notna (c :: cells) = true).
  { apply existsb_exists. exists (Some s). split; [exact Hs|reflexivity]. }
  now rewrite H.
Qed.

Lemma read_dtype_all_missing (cells : list (option string)) :
  cells <> [] -> (forall c, In c cells -> c = None) ->
  read_dtype cells = float64_dtype.
Proof.
  intros Hne Hall. unfold read_dtype. destruct cells as [|c cells]; [contradiction|].
  assert (H : existsb notna (c :: cells) = false).
  { apply not_true_is_false. intros H. apply existsb_exists in H.
    destruct H as (x & Hx & Hn). rewrite (Hall x Hx) in Hn. discriminate Hn. }
  now rewrite H.
Qed.


Section PlantProperties.

Variable map_area : option string -> string.

(** C1, on the code.  The cell below contains the text
    CCR(Safety District-2) and starts with neither NCU nor CCR.  The third
    mask of the NCU branch reads its pattern as a regular expression, in
    which the parentheses form a group: it looks for CCRSafety District-2.
    The row is dropped, and with it alone the plant summary is empty. *)
Theorem ncu_filter_drops_literal_safety_district :
  let r := {| permit_number := Some "P-1";
              department := Some "FIRE";
              responsibility_areas := Some "IOP CCR(Safety District-2)";
              workflow_state := Some "OPEN";
              created_date := None |} in
  Re.has_substring "CCR(Safety District-2)" "IOP CCR(Safety District-2)" = true
  /\ startswith_na "NCU" (responsibility_areas r) = false
  /\ startswith_na "CCR" (responsibility_areas r) = false
  /\ plant_df "NCU" [with_area map_area r] = Some []
  /\ (pdf ← plant_df "NCU" [with_area map_area r]; plantwise_summary pdf) = None.
Proof.
  cbn zeta. repeat split.
Qed.

(** What the third mask does accept: the text without the parentheses. *)
Lemma ncu_filter_keeps_unparenthesised :
  let r := {| permit_number := Some "P-1";
              department := Some "FIRE";
              responsibility_areas := Some "IOP CCRSafety District-2";
              workflow_state := Some "OPEN";
              created_date := None |} in
  plant_df "NCU" [with_area map_area r]
  = Some [set_area "NCU (Including CCR Areas)" (with_area map_area r)].
Proof.
  reflexivity.
Qed.

End PlantProperties.

(** *** Frames: keys, cells and totals *)

Lemma In_insert_unique (a b : string) (l : list string) :
  In b (insert_unique a l) <-> a = b \/ In b l.
Proof.
  induction l as [|k l IH]; cbn.
  - tauto.
  - destruct (String.compare a k) eqn:E; cbn.
    + apply String.compare_eq_iff in E. subst k. tauto.
    + tauto.
    + rewrite IH. tauto.
Qed.

Lemma In_sort_unique (a : string) (l : list string) :
  In a (sort_unique l) <-> In a l.
Proof.
  unfold sort_unique. induction l as [|k l IH]; cbn; [reflexivity|].
  rewrite In_insert_unique, IH. reflexivity.
Qed.

Lemma get_cell_map (f : string -> Z) (cols : list string) (c : string) :
  In c cols -> get_cell cols (map f cols) c = Some (f c).
Proof.
  induction cols as [|k cols IH]; cbn; [contradiction|].
  intros H. destruct (String.eqb k c) eqn:E.
  - apply String.eqb_eq in E. now subst.
  - apply String.eqb_neq in E. destruct H as [H|H]; [contradiction|auto].
Qed.

Lemma get_cell_Some (cols : list string) (vals : list Z) (c : string) :
  In c cols -> List.length vals = List.length cols ->
  get_cell cols vals c = Some (default 0 (get_cell cols vals c)).
Proof.
  revert vals. induction cols as [|k cols IH]; intros vals Hin Hlen;
    [contradiction|].
  destruct vals as [|v vals]; [discriminate|]. cbn.
  destruct (String.eqb k c) eqn:E; [reflexivity|].
  apply String.eqb_neq in E. destruct Hin as [Hin|Hin]; [contradiction|].
  apply IH; [exact Hin|]. cbn in Hlen. lia.
Qed.

Lemma assoc_map (f : string -> Z) (keys : list string) (k : string) :
  In k keys -> assoc k (map (fun c => (c, f c)) keys) = Some (f k).
Proof.
  induction keys as [|k' keys IH]; cbn; [contradiction|].
  intros H. destruct (String.eqb k' k) eqn:E.
  - apply String.eqb_eq in E. now subst.
  - apply String.eqb_neq in E. destruct H as [H|H]; [contradiction|auto].
Qed.

Lemma mapM_map_Some {A B : Type} (f : A -> option B) (g : A -> B) (l : list A) :
  (forall x, In x l -> f x = Some (g x)) -> mapM f l = Some (map g l).
Proof.
  induction l as [|x l IH]; intros H; [reflexivity|].
  cbn. rewrite (H x (or_introl eq_refl)). cbn.
  rewrite IH; [reflexivity|]. intros y Hy. apply H. now right.
Qed.

Lemma count_if_filter {A : Type} (p q : A -> bool) (l : list A) :
  count_if p (List.filter q l) = count_if (fun x => p x && q x) l.
Proof.
  unfold count_if. f_equal. f_equal.
  induction l as [|x l IH]; cbn; [reflexivity|].
  destruct (q x) eqn:Hq; cbn; destruct (p x) eqn:Hp; cbn;
    rewrite ?Hp, ?IH; reflexivity.
Qed.

Lemma count_if_map {A B : Type} (f : A -> B) (p : B -> bool) (l : list A) :
  count_if p (map f l) = count_if (fun x => p (f x)) l.
Proof.
  unfold count_if. f_equal.
  induction l as [|x l IH]; cbn; [reflexivity|].
  destruct (p (f x)); cbn; rewrite IH; reflexivity.
Qed.

Lemma count_if_ext {A : Type} (p q : A -> bool) (l : list A) :
  (forall x, p x = q x) -> count_if p l = count_if q l.
Proof.
  intros H. unfold count_if. f_equal. f_equal. apply filter_ext. exact H.
Qed.

Lemma count_if_positive {A : Type} (p : A -> bool) (l : list A) (x : A) :
  In x l -> p x = true -> 1 <= count_if p l.
Proof.
  intros Hin Hp. unfold count_if.
  assert (H : In x (List.filter p l)) by (apply filter_In; auto).
  destruct (List.filter p l); [contradiction|]. cbn [List.length]. lia.
Qed.

Lemma well_formed_reindex (cols : list string) (t : table) :
  well_formed (reindex cols t).
Proof.
  intros r Hr. cbn in Hr. apply in_map_iff in Hr. destruct Hr as (r0 & <- & _).
  cbn. now rewrite length_map.
Qed.

Lemma well_formed_status_counts (fdf : list arow) :
  well_formed (status_counts fdf).
Proof.
  intros r Hr. cbn in Hr. apply in_map_iff in Hr. destruct Hr as (a & <- & _).
  cbn. now rewrite length_map.
Qed.

Lemma length_row_values (t : table) (a : string) :
  well_formed t -> List.length (row_values t a) = List.length (columns t).
Proof.
  intros Hwf. unfold row_values.
  destruct (List.find _ (rows t)) as [r|] eqn:E.
  - apply Hwf. apply find_some in E. tauto.
  - now rewrite length_map.
Qed.

Lemma well_formed_join_outer (t u : table) :
  well_formed t -> well_formed u -> well_formed (join_outer t u).
Proof.
  intros Ht Hu r Hr. cbn in Hr. apply in_map_iff in Hr.
  destruct Hr as (a & <- & _). cbn.
  rewrite !length_app, !length_row_values; auto.
Qed.

Lemma well_formed_ensure_column (col : string) (t : table) :
  well_formed t -> well_formed (ensure_column col t).
Proof.
  intros Hwf. unfold ensure_column.
  destruct (existsb _ _); [exact Hwf|].
  intros r Hr. cbn in Hr. apply in_map_iff in Hr. destruct Hr as (r0 & <- & H0).
  cbn. rewrite !length_app. cbn. rewrite (Hwf r0 H0). reflexivity.
Qed.

Lemma header_ensure_column (col : string) (t : table) :
  header (ensure_column col t) = header t.
Proof.
  unfold ensure_column. destruct (existsb _ _); reflexivity.
Qed.

Lemma columns_ensure_column (col : string) (t : table) :
  columns (ensure_column col t)
  = if existsb (String.eqb col) (header t :: columns t)
    then columns t else (columns t ++ [col])%list.
Proof.
  unfold ensure_column. destruct (existsb _ _); reflexivity.
Qed.

Lemma find_label_map (F : string -> list Z) (keys : list string) (a : string) :
  In a keys ->
  List.find (fun r => String.eqb (fst r) a) (map (fun k => (k, F k)) keys)
  = Some (a, F a).
Proof.
  induction keys as [|k keys IH]; cbn; [contradiction|].
  intros H. destruct (String.eqb k a) eqn:E.
  - apply String.eqb_eq in E. now subst.
  - apply String.eqb_neq in E. destruct H as [H|H]; [contradiction|auto].
Qed.

Lemma In_omap {A B : Type} (f : A -> option B) (l : list A) (y : B) :
  In y (omap f l) <-> exists x, In x l /\ f x = Some y.
Proof.
  rewrite <- list_elem_of_In, list_elem_of_omap.
  split; intros (x & Hx & Hf); exists x; split; auto;
    now apply list_elem_of_In.
Qed.

(** *** The pivot *)

(** The rows of the pivot, one per Area that has a row with a Department,
    written with the counting function of each cell. *)
Lemma rows_pivot (fdf : list arow) :
  let grouped := List.filter (fun x => notna (department (base x))) fdf in
  let depts := sort_unique (omap (fun x => department (base x)) grouped) in
  rows (pivot fdf)
  = map (fun a =>
           (a, map (fun c =>
                      default 0
                        (get_cell depts
                           (map (fun d =>
                                   count_if
                                     (fun x => String.eqb (Area x) a
                                               && series_eq (department (base x)) d
                                               && notna (permit_number (base x)))
                                     grouped)
                                depts)
                           c))
                   dept_cols))
        (sort_unique (map Area grouped)).
Proof.
  cbn zeta. unfold pivot, reindex, pivot_table. cbn [rows columns].
  rewrite map_map. reflexivity.
Qed.

Lemma well_formed_pivot (fdf : list arow) : well_formed (pivot fdf).
Proof.
  apply well_formed_reindex.
Qed.

(** *** The summary table *)

Lemma Status_cases (r : permit) (s : string) :
  Status r = Some s -> s = "EXPIRED" \/ s = "PENDING CLOSURE".
Proof.
  unfold Status.
  destruct (String.eqb _ "PENDING CLOSURE"); [intros [= <-]; auto|].
  destruct (String.eqb _ "EXPIRED"); [intros [= <-]; auto|discriminate].
Qed.

Lemma sort_unique_statuses (l : list string) :
  (forall s, In s l -> s = "EXPIRED" \/ s = "PENDING CLOSURE") ->
  sort_unique l = []
  \/ sort_unique l = ["EXPIRED"]
  \/ sort_unique l = ["PENDING CLOSURE"]
  \/ sort_unique l = ["EXPIRED"; "PENDING CLOSURE"].
Proof.
  induction l as [|s l IH]; intros H; [now left|].
  change (sort_unique (s :: l)) with (insert_unique s (sort_unique l)).
  destruct (H s (or_introl eq_refl)) as [-> | ->];
    (destruct IH as [E|[E|[E|E]]]; [intros; apply H; now right| | | |]);
    rewrite E; cbn; auto.
Qed.

Lemma columns_status_counts (fdf : list arow) :
  columns (status_counts fdf) = []
  \/ columns (status_counts fdf) = ["EXPIRED"]
  \/ columns (status_counts fdf) = ["PENDING CLOSURE"]
  \/ columns (status_counts fdf) = ["EXPIRED"; "PENDING CLOSURE"].
Proof.
  cbn [status_counts columns]. apply sort_unique_statuses.
  intros s Hs. apply In_omap in Hs. destruct Hs as (x & _ & Hx).
  now apply Status_cases in Hx.
Qed.

(** The labels of the joined frame are Areas of the rows. *)
Lemma labels_join_outer (fdf : list arow) (a : string) :
  In a (map fst (rows (join_outer (pivot fdf) (status_counts fdf)))) ->
  In a (map Area fdf).
Proof.
  cbn [join_outer rows]. rewrite map_map. cbn [fst]. rewrite map_id.
  rewrite In_sort_unique, in_app_iff.
  intros [H|H].
  - pose proof (rows_pivot fdf) as Hrows. cbn zeta in Hrows.
    rewrite Hrows, map_map in H. cbn [fst] in H. rewrite map_id in H.
    apply In_sort_unique, in_map_iff in H. destruct H as (x & <- & Hx).
    apply filter_In in Hx. apply in_map. tauto.
  - cbn [status_counts rows] in H. rewrite map_map in H. cbn [fst] in H.
    rewrite map_id in H.
    apply In_sort_unique, in_map_iff in H. destruct H as (x & <- & Hx).
    apply filter_In in Hx. apply in_map. tauto.
Qed.

(** The left join with the closed counts finds a count for every label. *)
Lemma join_left_closed_counts (fdf : list arow) :
  let joined := join_outer (pivot fdf) (status_counts fdf) in
  join_left joined "Closed" (closed_counts fdf)
  = Some {| header := header joined;
            columns := (columns joined ++ ["Closed"])%list;
            rows :=
              map (fun r =>
                     (fst r,
                      (snd r ++
                       [count_if (fun x => String.eqb (Area x) (fst r)
                                           && Closed (base x)) fdf])%list))
                  (rows joined) |}.
Proof.
  intros joined. unfold join_left.
  rewrite (mapM_map_Some _
             (fun r => (fst r,
                        (snd r ++
                         [count_if (fun x => String.eqb (Area x) (fst r)
                                             && Closed (base x)) fdf])%list))).
  - reflexivity.
  - intros r Hr. unfold closed_counts.
    rewrite (assoc_map
               (fun a => count_if (fun x => String.eqb (Area x) a
                                            && Closed (base x)) fdf)).
    + reflexivity.
    + apply In_sort_unique, labels_join_outer. now apply in_map.
Qed.

(** The table before the TOTAL row: it exists, every row has a cell per
    column, and its columns are the ten of [all_columns]. *)
Lemma area_table_shape (fdf : list arow) :
  exists t,
    area_table fdf = Some t
    /\ well_formed t
    /\ (forall c, In c (columns t) <-> In c all_columns).
Proof.
  unfold area_table.
  pose proof (join_left_closed_counts fdf) as Hj. cbn zeta in Hj. rewrite Hj.
  clear Hj. cbn [mbind option_bind].
  eexists. split; [reflexivity|].
  set (joined := join_outer (pivot fdf) (status_counts fdf)).
  assert (Hwj : well_formed joined).
  { apply well_formed_join_outer;
      [apply well_formed_pivot|apply well_formed_status_counts]. }
  set (t1 := rename_column "Closed" "CLOSED" _).
  assert (Hw1 : well_formed t1).
  { intros r Hr. cbn in Hr. apply in_map_iff in Hr.
    destruct Hr as (r0 & <- & H0). cbn.
    rewrite length_map, !length_app. cbn. now rewrite (Hwj r0 H0). }
  split.
  - cbn [fold_left]. now repeat apply well_formed_ensure_column.
  - intros c. cbn [fold_left].
    repeat first [rewrite columns_ensure_column | rewrite header_ensure_column].
    assert (Hh : header t1 = "Area") by reflexivity.
    assert (Hc : columns t1
                 = map (fun c => if String.eqb c "Closed" then "CLOSED" else c)
                       ((dept_cols ++ columns (status_counts fdf)) ++ ["Closed"])%list)
      by reflexivity.
    rewrite Hh, Hc. clear Hh Hc.
    destruct (columns_status_counts fdf) as [E|[E|[E|E]]]; rewrite E;
      lazy; tauto.
Qed.

Lemma column_values_Some (t : table) (c : string) :
  well_formed t -> In c (columns t) ->
  column_values t c
  = Some (map (fun r => default 0 (get_cell (columns t) (snd r) c)) (rows t)).
Proof.
  intros Hwf Hc. unfold column_values. apply mapM_map_Some.
  intros r Hr. apply get_cell_Some; [exact Hc|now apply Hwf].
Qed.

(** The TOTAL row holds, under each column, the sum of the column. *)
Lemma append_total_Some (t : table) :
  well_formed t ->
  (forall c, In c (columns t) <-> In c all_columns) ->
  append_total t
  = Some {| header := header t;
            columns := columns t;
            rows :=
              (rows t ++
               [("TOTAL",
                 map (fun c =>
                        sumZ (map (fun r => default 0 (get_cell (columns t) (snd r) c))
                                  (rows t)))
                     (columns t))])%list |}.
Proof.
  intros Hwf Hcols. unfold append_total, total_row.
  rewrite (mapM_map_Some _
             (fun c => (c, sumZ (map (fun r => default 0 (get_cell (columns t) (snd r) c))
                                     (rows t))))).
  2:{ intros c Hc. rewrite column_values_Some; [reflexivity|exact Hwf|].
      now apply Hcols. }
  cbn [mbind option_bind].
  rewrite (mapM_map_Some _
             (fun c => sumZ (map (fun r => default 0 (get_cell (columns t) (snd r) c))
                                 (rows t)))).
  2:{ intros c Hc.
      apply (assoc_map
               (fun c => sumZ (map (fun r => default 0 (get_cell (columns t) (snd r) c))
                                   (rows t)))).
      now apply Hcols. }
  reflexivity.
Qed.

Lemma select_columns_Some (sel : list string) (t : table) :
  well_formed t ->
  (forall c, In c sel -> In c (columns t)) ->
  select_columns sel t
  = Some {| header := header t;
            columns := sel;
            rows := map (fun r =>
                           (fst r,
                            map (fun c => default 0 (get_cell (columns t) (snd r) c))
                                sel))
                        (rows t) |}.
Proof.
  intros Hwf Hsel. unfold select_columns.
  rewrite (mapM_map_Some _
             (fun r => (fst r,
                        map (fun c => default 0 (get_cell (columns t) (snd r) c)) sel))).
  - reflexivity.
  - intros r Hr.
    rewrite (mapM_map_Some _
               (fun c => default 0 (get_cell (columns t) (snd r) c))).
    + reflexivity.
    + intros c Hc. apply get_cell_Some; [now apply Hsel|now apply Hwf].
Qed.

Lemma nth_map_in_range {A : Type} (f : A -> Z) (l : list A) (j : nat) (d : A) :
  (j < List.length l)%nat -> nth j (map f l) 0 = f (nth j l d).
Proof.
  intros H. rewrite (nth_indep _ 0 (f d)) by now rewrite length_map.
  apply map_nth.
Qed.

Section SummaryProperties.

Variable map_area : option string -> string.


(** C3.  For a working subset and any choice of columns among the ten
    offered, the displayed table exists, its last row is labelled TOTAL, and
    each cell of that row is the sum, over the rows above it, of the cells of
    the same displayed column. *)
Theorem total_row_sums_displayed_columns
  (filtered_df : list permit) (selected_columns : list string) :
  (forall c, In c selected_columns -> In c all_columns) ->
  exists body totals,
    display_table map_area filtered_df selected_columns
    = Some {| header := "RESPONSIBILITY AREAS";
              columns := selected_columns;
              rows := (body ++ [("TOTAL", totals)])%list |}
    /\ List.length totals = List.length selected_columns
    /\ (forall r, In r body -> List.length (snd r) = List.length selected_columns)
    /\ (forall j, (j < List.length selected_columns)%nat ->
                  nth j totals 0 = sumZ (map (fun r => nth j (snd r) 0) body)).
Proof.
  intros Hsel. unfold display_table, final_table.
  destruct (area_table_shape (map (with_area map_area) filtered_df)) as (t & Ht & Hwf & Hcols).
  rewrite Ht. cbn [mbind option_bind].
  rewrite (append_total_Some t Hwf Hcols). cbn [mbind option_bind columns rows].
  set (cell := fun (vals : list Z) (c : string) =>
                 default 0 (get_cell (columns t) vals c)).
  set (colsum := fun c => sumZ (map (fun r => cell (snd r) c) (rows t))).
  rewrite select_columns_Some; cbn [columns rows header].
  2:{ intros r Hr. cbn [columns rows] in *. apply in_app_iff in Hr.
      destruct Hr as [Hr|[<-|[]]]; [now apply Hwf|].
      cbn. now rewrite length_map. }
  2:{ intros c Hc. now apply Hcols, Hsel. }
  rewrite map_app. cbn [map fst snd].
  exists (map (fun r => (fst r, map (cell (snd r)) selected_columns)) (rows t)).
  exists (map colsum selected_columns).
  split; [|split; [|split]].
  - do 3 f_equal. f_equal. f_equal. apply map_ext_in. intros c Hc.
    change (default 0 (get_cell (columns t) (map colsum (columns t)) c) = colsum c).
    rewrite (get_cell_map colsum); [reflexivity|]. now apply Hcols, Hsel.
  - now rewrite length_map.
  - intros r Hr. apply in_map_iff in Hr. destruct Hr as (r0 & <- & _).
    cbn. now rewrite length_map.
  - intros j Hj. rewrite (nth_map_in_range colsum _ j EmptyString Hj).
    rewrite map_map. cbn [snd]. unfold colsum. f_equal.
    apply map_ext. intros r.
    now rewrite (nth_map_in_range (cell (snd r)) _ j EmptyString Hj).
Qed.

End SummaryProperties.

(** *** Further properties of the session and the store *)

(** The three refusals of [remove_user] and its one success, case by case. *)
Lemma remove_user_cases (uname : string) (w : world) :
  ((uname ∉ dom (USERS w))
   /\ remove_user uname w = ((false, "User does not exist!"), w))
  \/ (uname ∈ dom (USERS w) /\ uname = "admin"
      /\ remove_user uname w = ((false, "Cannot delete the admin user!"), w))
  \/ (uname ∈ dom (USERS w) /\ uname <> "admin"
      /\ username (auth w) = Some uname
      /\ remove_user uname w
         = ((false, "Cannot delete your own account while logged in!"), w))
  \/ (uname ∈ dom (USERS w) /\ uname <> "admin"
      /\ username (auth w) <> Some uname
      /\ remove_user uname w
         = ((true, "User " ++ uname ++ " removed successfully!"),
            {| USERS := delete uname (USERS w);
               user_db := Some (delete uname (USERS w));
               auth := set_user_removed true (auth w) |})).
Proof.
  unfold remove_user.
  destruct (bool_decide (uname ∈ dom (USERS w))) eqn:Hin; cbn [negb].
  2:{ apply bool_decide_eq_false in Hin. left. auto. }
  apply bool_decide_eq_true in Hin. right.
  destruct (String.eqb_spec uname "admin") as [Hadm|Hadm]; [left; auto|].
  right.
  destruct (bool_decide (Some uname = username (auth w))) eqn:Hself.
  - apply bool_decide_eq_true in Hself. left. auto.
  - apply bool_decide_eq_false in Hself. right.
    repeat split; auto.
Qed.

(** [remove_user] fails exactly when the name is not in the store, or is
    admin, or is the name of the session; a failure changes nothing and
    carries a message, a success deletes that one key, writes the file and
    raises the removed flag. *)
Theorem remove_user_fails_iff (uname : string) (w : world) :
  let '((ok, msg), w') := remove_user uname w in
  (ok = false <->
   (uname ∉ dom (USERS w)) \/ uname = "admin" \/ username (auth w) = Some uname)
  /\ (ok = false -> w' = w /\ msg <> EmptyString)
  /\ (ok = true ->
      USERS w' = delete uname (USERS w)
      /\ user_db w' = Some (USERS w')
      /\ auth w' = set_user_removed true (auth w)).
Proof.
  destruct (remove_user_cases uname w)
    as [(H1 & ->)|[(H1 & H2 & ->)|[(H1 & H2 & H3 & ->)|(H1 & H2 & H3 & ->)]]];
    cbn.
  - repeat split; auto; discriminate.
  - repeat split; auto; discriminate.
  - repeat split; auto; discriminate.
  - repeat split; try discriminate.
    intros [H|[H|H]]; contradiction.
Qed.

(** The remove form offers exactly the accounts [remove_user] accepts. *)
Theorem removable_users_are_removable (uname : string) (w : world) :
  uname ∈ removable_users w <-> fst (fst (remove_user uname w)) = true.
Proof.
  unfold removable_users. rewrite elem_of_filter.
  destruct (remove_user_cases uname w)
    as [(H1 & ->)|[(H1 & H2 & ->)|[(H1 & H2 & H3 & ->)|(H1 & H2 & H3 & ->)]]];
    cbn [fst].
  - split; [tauto|discriminate].
  - split; [tauto|discriminate].
  - split; [|discriminate]. intros ((_ & Hs) & _). exfalso. apply Hs.
    now rewrite H3.
  - split; [reflexivity|]. intros _. repeat split; auto.
Qed.

(** [remove_user] touches no other account: every other key keeps its
    record, whether the call succeeds or not. *)
Theorem remove_user_keeps_other_accounts (uname other : string) (w : world) :
  other <> uname ->
  USERS (snd (remove_user uname w)) !! other = USERS w !! other.
Proof.
  intros Hne.
  destruct (remove_user_cases uname w)
    as [(H1 & ->)|[(H1 & H2 & ->)|[(H1 & H2 & H3 & ->)|(H1 & H2 & H3 & ->)]]];
    cbn [snd USERS]; try reflexivity.
  now apply lookup_delete_ne.
Qed.

Section SessionInvariants.

Variable sha256 : string -> string.

(** The two refusals of [register_user] and its success, case by case. *)
Lemma register_user_cases (uname fullname pwd urole : string) (w : world) :
  (uname ∈ dom (USERS w)
   /\ register_user sha256 uname fullname pwd urole w
      = ((false, "Username already exists!"), w))
  \/ ((uname ∉ dom (USERS w)) /\ (uname = EmptyString \/ pwd = EmptyString)
      /\ register_user sha256 uname fullname pwd urole w
         = ((false, "Username and password are required!"), w))
  \/ ((uname ∉ dom (USERS w)) /\ uname <> EmptyString /\ pwd <> EmptyString
      /\ register_user sha256 uname fullname pwd urole w
         = ((true, "User " ++ uname ++ " registered successfully!"),
            let users := <[ uname := {| name := fullname;
                                        password_hash := sha256 pwd;
                                        role := Some urole |} ]> (USERS w) in
            {| USERS := users;
               user_db := Some users;
               auth := set_user_added true (auth w) |})).
Proof.
  unfold register_user.
  destruct (bool_decide (uname ∈ dom (USERS w))) eqn:Hin.
  { apply bool_decide_eq_true in Hin. left. auto. }
  apply bool_decide_eq_false in Hin. right.
  destruct (truthy uname) eqn:Hu; cbn [negb orb].
  2:{ apply truthy_false_iff in Hu. left. auto. }
  destruct (truthy pwd) eqn:Hp; cbn [negb].
  2:{ apply truthy_false_iff in Hp. left. auto. }
  right. repeat split; auto.
  - intros H. apply truthy_false_iff in H. congruence.
  - intros H. apply truthy_false_iff in H. congruence.
Qed.

(** What a failed attempt returns. *)
Lemma login_failed_eq (w : world) :
  login_failed w
  = (set_auth (set_failed_attempts (failed_attempts (auth w) + 1) (auth w)) w,
     [st_error (if 3 <=? failed_attempts (auth w) + 1
                then "Too many failed attempts. Please try again later."
                else "Invalid username or password")],
     if 3 <=? failed_attempts (auth w) + 1 then Stop else Continue).
Proof.
  unfold login_failed. destruct (3 <=? failed_attempts (auth w) + 1); reflexivity.
Qed.

(** The success and the failure of [authenticate]. *)
Lemma authenticate_cases (uname pwd : string) (w : world) :
  (exists u,
      USERS w !! uname = Some u
      /\ password_hash u = sha256 pwd
      /\ authenticate sha256 uname pwd w
         = (set_auth {| authenticated := true;
                        username := Some uname;
                        failed_attempts := 0;
                        is_admin := String.eqb (default "user" (role u)) "admin";
                        show_register := false;
                        user_added := false;
                        user_removed := false |} w,
            [], Rerun))
  \/ ((forall u, USERS w !! uname = Some u -> password_hash u <> sha256 pwd)
      /\ authenticate sha256 uname pwd w = login_failed w).
Proof.
  unfold authenticate. destruct (USERS w !! uname) as [u|] eqn:Hu.
  - destruct (String.eqb_spec (password_hash u) (sha256 pwd)) as [Hh|Hh].
    + left. exists u. auto.
    + right. split; [|reflexivity]. intros u' [= <-]. exact Hh.
  - right. split; [|reflexivity]. discriminate.
Qed.

(** A login succeeds only with a name of the store and a password whose
    digest is the stored hash.  Any other attempt leaves the session logged
    in or out as it was, counts one failure, reports an error, and ends the
    run when the count has reached 3.  No attempt touches the store. *)
Theorem authenticate_only_matching_digest (uname pwd : string) (w : world) :
  let '(w', msgs, c) := authenticate sha256 uname pwd w in
  (c = Rerun <->
   exists u, USERS w !! uname = Some u /\ password_hash u = sha256 pwd)
  /\ (c <> Rerun ->
      auth w' = set_failed_attempts (failed_attempts (auth w) + 1) (auth w)
      /\ msgs <> []
      /\ (c = Stop <-> 3 <= failed_attempts (auth w) + 1))
  /\ USERS w' = USERS w
  /\ user_db w' = user_db w.
Proof.
  destruct (authenticate_cases uname pwd w) as [(u & Hu & Hh & ->)|(Hno & ->)].
  - repeat split; eauto; contradiction.
  - rewrite login_failed_eq.
    destruct (3 <=? failed_attempts (auth w) + 1) eqn:E.
    + apply Z.leb_le in E. repeat split; auto; try discriminate.
      intros (u & Hu & Hh). exfalso. exact (Hno u Hu Hh).
    + apply Z.leb_gt in E. repeat split; auto; try discriminate.
      * intros (u & Hu & Hh). exfalso. exact (Hno u Hu Hh).
      * lia.
Qed.

(** An account just registered can log in with the password it was given,
    and is an administrator exactly when it was registered as admin. *)
Theorem registered_user_can_log_in
  (uname fullname pwd urole : string) (w : world) :
  uname ∉ dom (USERS w) ->
  uname <> EmptyString ->
  pwd <> EmptyString ->
  let w1 := snd (register_user sha256 uname fullname pwd urole w) in
  exists w2,
    authenticate sha256 uname pwd w1 = (w2, [], Rerun)
    /\ authenticated (auth w2) = true
    /\ username (auth w2) = Some uname
    /\ is_admin (auth w2) = String.eqb urole "admin"
    /\ failed_attempts (auth w2) = 0.
Proof.
  intros Hin Hu Hp.
  destruct (register_user_cases uname fullname pwd urole w)
    as [(H & _)|[(_ & [H|H] & _)|(_ & _ & _ & ->)]]; try contradiction.
  cbn [snd]. unfold authenticate. cbn [USERS].
  rewrite lookup_insert_eq. cbn [password_hash role default].
  rewrite String.eqb_refl. eexists. repeat split.
Qed.

(** [register_user] never overwrites: every account of the store keeps
    its record, with its password hash and role, whether the call succeeds
    or not. *)
Theorem register_user_keeps_accounts
  (uname fullname pwd urole other : string) (u : user) (w : world) :
  USERS w !! other = Some u ->
  USERS (snd (register_user sha256 uname fullname pwd urole w)) !! other = Some u.
Proof.
  intros Ho.
  destruct (register_user_cases uname fullname pwd urole w)
    as [(_ & ->)|[(_ & _ & ->)|(Hin & _ & _ & ->)]]; cbn [snd USERS]; auto.
  rewrite lookup_insert_ne; [exact Ho|].
  intros ->. apply Hin. apply elem_of_dom. eauto.
Qed.

(** The login page, whatever is submitted to it, changes no account of the
    store, and an account it adds has the role user. *)
Theorem login_page_preserves_accounts (e : event) (w : world) :
  let w' := fst (fst (login_page sha256 e w)) in
  (forall v u, USERS w !! v = Some u -> USERS w' !! v = Some u)
  /\ (forall v u, USERS w' !! v = Some u -> USERS w !! v = None ->
                  role u = Some "user").
Proof.
  cbn zeta. unfold login_page.
  destruct (authenticated (auth w)); cbn [negb fst]; [split; [auto|congruence]|].
  assert (Hreg : forall uname fullname pwd w0,
             USERS w0 = USERS w ->
             let w' := snd (register_user sha256 uname fullname pwd "user" w0) in
             (forall v u, USERS w !! v = Some u -> USERS w' !! v = Some u)
             /\ (forall v u, USERS w' !! v = Some u -> USERS w !! v = None ->
                             role u = Some "user")).
  { intros uname fullname pwd w0 HU. cbn zeta.
    destruct (register_user_cases uname fullname pwd "user" w0)
      as [(_ & ->)|[(_ & _ & ->)|(Hin & _ & _ & ->)]]; cbn [snd USERS];
      rewrite HU in *; try (split; [auto|congruence]).
    split.
    - intros v u Hv. rewrite lookup_insert_ne; [exact Hv|].
      intros ->. apply Hin. apply elem_of_dom. eauto.
    - intros v u Hv Hnone. destruct (decide (uname = v)) as [->|Hne].
      + rewrite lookup_insert_eq in Hv. injection Hv as <-. reflexivity.
      + rewrite lookup_insert_ne in Hv by exact Hne. congruence. }
  unfold show_login.
  destruct e as [| |uname pwd|uname fullname pwd confirm]; cbn [auth set_auth
    show_register set_show_register].
  - cbn. split; [auto|congruence].
  - cbn. split; [auto|congruence].
  - destruct (show_register (auth w)); cbn [fst].
    + split; [auto|congruence].
    + destruct (authenticate_cases uname pwd w) as [(u & _ & _ & ->)|(_ & ->)].
      * cbn. split; [auto|congruence].
      * rewrite login_failed_eq. cbn. split; [auto|congruence].
  - destruct (show_register (auth w)); cbn [fst]; [|split; [auto|congruence]].
    destruct (negb (String.eqb pwd confirm)); cbn [fst];
      [split; [auto|congruence]|].
    specialize (Hreg uname fullname pwd w eq_refl). cbn zeta in Hreg.
    destruct (register_user sha256 uname fullname pwd "user" w)
      as [[ok msg] w2]. cbn [snd] in Hreg.
    destruct ok; cbn [fst set_auth USERS]; exact Hreg.
Qed.

(** The session invariants depend on the store, on whether the session is
    logged in, and on its name and administrator flag only. *)
Lemma invariants_same_core (w w' : world) :
  USERS w' = USERS w ->
  user_db w' = user_db w ->
  authenticated (auth w') = authenticated (auth w) ->
  username (auth w') = username (auth w) ->
  is_admin (auth w') = is_admin (auth w) ->
  store_synced sha256 w /\ login_consistent w ->
  store_synced sha256 w' /\ login_consistent w'.
Proof.
  intros HU HD Ha Hn Hi [Hs Hl]. unfold store_synced, login_consistent in *.
  rewrite HU, HD, Ha, Hn, Hi. auto.
Qed.

Lemma invariants_register_user (uname fullname pwd urole : string) (w : world) :
  store_synced sha256 w /\ login_consistent w ->
  store_synced sha256 (snd (register_user sha256 uname fullname pwd urole w))
  /\ login_consistent (snd (register_user sha256 uname fullname pwd urole w)).
Proof.
  intros [Hs Hl].
  destruct (register_user_cases uname fullname pwd urole w)
    as [(_ & ->)|[(_ & _ & ->)|(Hin & _ & _ & ->)]]; cbn [snd]; auto.
  split; [reflexivity|].
  destruct Hl as [Hin' Hout]. split; cbn.
  - intros Ha. destruct (Hin' Ha) as (v & u & Hn & Hv & Hi).
    exists v, u. repeat split; auto.
    rewrite lookup_insert_ne; [exact Hv|].
    intros ->. apply Hin. apply elem_of_dom. eauto.
  - exact Hout.
Qed.

Lemma invariants_remove_user (uname : string) (w : world) :
  store_synced sha256 w /\ login_consistent w ->
  store_synced sha256 (snd (remove_user uname w))
  /\ login_consistent (snd (remove_user uname w)).
Proof.
  intros [Hs Hl].
  destruct (remove_user_cases uname w)
    as [(H1 & ->)|[(H1 & H2 & ->)|[(H1 & H2 & H3 & ->)|(H1 & H2 & H3 & ->)]]];
    cbn [snd]; auto.
  split; [reflexivity|].
  destruct Hl as [Hin' Hout]. split; cbn.
  - intros Ha. destruct (Hin' Ha) as (v & u & Hn & Hv & Hi).
    exists v, u. repeat split; auto.
    rewrite lookup_delete_ne; [exact Hv|]. congruence.
  - exact Hout.
Qed.

Lemma invariants_authenticate (uname pwd : string) (w : world) :
  store_synced sha256 w /\ login_consistent w ->
  store_synced sha256 (fst (fst (authenticate sha256 uname pwd w)))
  /\ login_consistent (fst (fst (authenticate sha256 uname pwd w))).
Proof.
  intros H.
  destruct (authenticate_cases uname pwd w) as [(u & Hu & _ & ->)|(_ & ->)].
  - cbn [fst]. destruct H as [Hs _]. split; [exact Hs|].
    split; cbn; [|discriminate]. intros _. exists uname, u. auto.
  - rewrite login_failed_eq. cbn [fst].
    revert H. now apply invariants_same_core.
Qed.

Lemma invariants_show_login (e : event) (w : world) :
  store_synced sha256 w /\ login_consistent w ->
  store_synced sha256 (fst (fst (show_login sha256 e w)))
  /\ login_consistent (fst (fst (show_login sha256 e w))).
Proof.
  intros H.
  assert (Hset : forall b w0,
             store_synced sha256 w0 /\ login_consistent w0 ->
             store_synced sha256 (set_auth (set_show_register b (auth w0)) w0)
             /\ login_consistent (set_auth (set_show_register b (auth w0)) w0))
    by (intros b w0; now apply invariants_same_core).
  unfold show_login.
  destruct e as [| |uname pwd|uname fullname pwd confirm].
  - cbn. now apply Hset.
  - cbn. now apply Hset.
  - destruct (show_register (auth w)); cbn [fst]; [exact H|].
    apply (invariants_authenticate uname pwd w H).
  - destruct (show_register (auth w)); cbn [fst]; [|exact H].
    destruct (negb (String.eqb pwd confirm)); cbn [fst]; [exact H|].
    pose proof (invariants_register_user uname fullname pwd "user" w H) as Hr.
    destruct (register_user sha256 uname fullname pwd "user" w)
      as [[ok msg] w2]. cbn [snd] in Hr.
    destruct ok; cbn [fst]; [now apply Hset|exact Hr].
Qed.

Lemma invariants_login_page (e : event) (w : world) :
  store_synced sha256 w /\ login_consistent w ->
  store_synced sha256 (fst (fst (login_page sha256 e w)))
  /\ login_consistent (fst (fst (login_page sha256 e w))).
Proof.
  intros H. unfold login_page.
  destruct (authenticated (auth w)); cbn [negb fst]; [exact H|].
  pose proof (invariants_show_login e w H) as Hs.
  now destruct (show_login sha256 e w) as [[w' m] c].
Qed.

(** The success notes clear their flags and nothing else. *)
Lemma flash_core (w : world) :
  USERS (fst (flash w)) = USERS w
  /\ user_db (fst (flash w)) = user_db w
  /\ authenticated (auth (fst (flash w))) = authenticated (auth w)
  /\ username (auth (fst (flash w))) = username (auth w)
  /\ is_admin (auth (fst (flash w))) = is_admin (auth w).
Proof.
  unfold flash. destruct (user_added (auth w)); cbn;
    destruct (user_removed (auth w)); cbn; repeat split.
Qed.

Lemma invariants_admin_panel (e : option dash_event) (w : world) :
  store_synced sha256 w /\ login_consistent w ->
  store_synced sha256 (fst (fst (admin_panel sha256 e w)))
  /\ login_consistent (fst (fst (admin_panel sha256 e w))).
Proof.
  intros H. unfold admin_panel.
  destruct (is_admin (auth w)); [|exact H].
  destruct e as [[|uname fullname pwd urole|selection|]|]; try exact H.
  - pose proof (invariants_register_user uname fullname pwd urole w H) as Hr.
    destruct (register_user sha256 uname fullname pwd urole w)
      as [[ok msg] w2]. cbn [snd] in Hr. now destruct ok.
  - destruct (1 <? size (USERS w))%nat; [|exact H].
    assert (Hr : store_synced sha256 (snd (remove_selected selection w))
                 /\ login_consistent (snd (remove_selected selection w))).
    { destruct selection as [uname|]; cbn [remove_selected snd]; [|exact H].
      now apply invariants_remove_user. }
    destruct (remove_selected selection w) as [[ok msg] w2].
    cbn [snd] in Hr. now destruct ok.
Qed.

Lemma invariants_dashboard (e : option dash_event) (w : world) :
  store_synced sha256 w /\ login_consistent w ->
  store_synced sha256 (fst (fst (dashboard sha256 e w)))
  /\ login_consistent (fst (fst (dashboard sha256 e w))).
Proof.
  intros H.
  assert (Hflash : store_synced sha256 (fst (flash w))
                   /\ login_consistent (fst (flash w))).
  { destruct (flash_core w) as (HU & HD & Ha & Hn & Hi).
    revert H. now apply invariants_same_core. }
  assert (Hrest : store_synced sha256
                    (fst (fst (let '(w1, m1) := flash w in
                               let '(w2, m2, c) := admin_panel sha256 e w1 in
                               (w2, (m1 ++ m2)%list, c))))
                  /\ login_consistent
                       (fst (fst (let '(w1, m1) := flash w in
                                  let '(w2, m2, c) := admin_panel sha256 e w1 in
                                  (w2, (m1 ++ m2)%list, c))))).
  { destruct (flash w) as [w1 m1]. cbn [fst] in Hflash.
    pose proof (invariants_admin_panel e w1 Hflash) as Hp.
    now destruct (admin_panel sha256 e w1) as [[w2 m2] c]. }
  unfold dashboard. destruct e as [[| | |]|]; try exact Hrest.
  cbn. destruct H as [Hs _]. split; [exact Hs|].
  split; cbn; [discriminate|auto].
Qed.

Lemma reload_synced (w : world) : store_synced sha256 w -> reload sha256 w = w.
Proof.
  unfold store_synced, reload. intros ->. now destruct w.
Qed.

Lemma invariants_script (e : option page_event) (w : world) :
  store_synced sha256 w /\ login_consistent w ->
  store_synced sha256 (fst (fst (script sha256 e w)))
  /\ login_consistent (fst (fst (script sha256 e w))).
Proof.
  intros H. unfold script. cbn zeta.
  rewrite (reload_synced w (proj1 H)).
  destruct (authenticated (auth w)); cbn [negb].
  - destruct e as [[ev|ev]|]; now apply invariants_dashboard.
  - destruct e as [[ev|ev]|]; try exact H. now apply invariants_login_page.
Qed.

Lemma invariants_interaction (e : page_event) (w : world) :
  store_synced sha256 w /\ login_consistent w ->
  store_synced sha256 (fst (interaction sha256 e w))
  /\ login_consistent (fst (interaction sha256 e w)).
Proof.
  intros H. unfold interaction.
  pose proof (invariants_script (Some e) w H) as H1.
  destruct (script sha256 (Some e) w) as [[w1 m1] c1]. cbn [fst] in H1.
  destruct c1; cbn [fst]; try exact H1.
  pose proof (invariants_script None w1 H1) as H2.
  now destruct (script sha256 None w1) as [[w2 m2] c2].
Qed.

Lemma invariants_session (es : list page_event) (w : world) :
  store_synced sha256 w /\ login_consistent w ->
  store_synced sha256 (session sha256 es w)
  /\ login_consistent (session sha256 es w).
Proof.
  revert w. induction es as [|e es IH]; intros w H; [exact H|].
  cbn [session fold_left]. apply IH. now apply invariants_interaction.
Qed.

Lemma invariants_start (file : option (gmap string user)) :
  store_synced sha256 (start sha256 file)
  /\ login_consistent (start sha256 file).
Proof.
  split; [reflexivity|]. split; cbn; [discriminate|auto].
Qed.

(** Whatever a visitor does in a session, logging in and out, registering,
    adding and removing users, the store of the process is the one a restart
    would load from the file. *)
Theorem session_keeps_store_synced
  (file : option (gmap string user)) (es : list page_event) :
  let w := session sha256 es (start sha256 file) in
  load_users sha256 (user_db w) = USERS w.
Proof.
  apply (invariants_session es (start sha256 file) (invariants_start file)).
Qed.

(** A run that nothing was submitted to leaves the file alone, holds the
    store of the file, and asks for no rerun. *)
Lemma script_None (w : world) :
  USERS (fst (fst (script sha256 None w))) = load_users sha256 (user_db w)
  /\ user_db (fst (fst (script sha256 None w))) = user_db w
  /\ snd (script sha256 None w) <> Rerun.
Proof.
  unfold script. cbn zeta. set (w0 := reload sha256 w).
  change (load_users sha256 (user_db w)) with (USERS w0).
  change (user_db w) with (user_db w0).
  destruct (authenticated (auth w0)); cbn [negb];
    [|cbn; repeat split; discriminate].
  unfold dashboard, admin_panel.
  destruct (flash_core w0) as (HU & HD & _).
  destruct (flash w0) as [w1 m1]. cbn [fst] in HU, HD.
  destruct (is_admin (auth w1)); cbn; repeat split; auto; discriminate.
Qed.

(** In a logged-in session without the administrator flag no event of the
    dashboard changes the file, and the store stays the one of the file. *)
Theorem non_admin_cannot_change_store (e : dash_event) (w : world) :
  authenticated (auth w) = true ->
  is_admin (auth w) = false ->
  user_db (fst (interaction sha256 (OnDashboard e) w)) = user_db w
  /\ USERS (fst (interaction sha256 (OnDashboard e) w))
     = load_users sha256 (user_db w).
Proof.
  intros Ha Hi.
  assert (H1 : user_db (fst (fst (script sha256 (Some (OnDashboard e)) w)))
               = user_db w
               /\ USERS (fst (fst (script sha256 (Some (OnDashboard e)) w)))
                  = load_users sha256 (user_db w)).
  { unfold script. cbn zeta. set (w0 := reload sha256 w).
    change (load_users sha256 (user_db w)) with (USERS w0).
    change (user_db w) with (user_db w0).
    change (authenticated (auth w0)) with (authenticated (auth w)).
    rewrite Ha. cbn [negb]. unfold dashboard.
    destruct (flash_core w0) as (HU & HD & _ & _ & Hadm).
    change (is_admin (auth w0)) with (is_admin (auth w)) in Hadm.
    destruct e; try (cbn; now split);
      destruct (flash w0) as [w1 m1]; cbn [fst] in HU, HD, Hadm;
      unfold admin_panel; rewrite Hadm, Hi; cbn; auto. }
  unfold interaction.
  destruct (script sha256 (Some (OnDashboard e)) w) as [[w1 m1] c1].
  cbn [fst] in H1. destruct H1 as [HD HU].
  destruct c1; cbn [fst]; auto.
  destruct (script_None w1) as (HU2 & HD2 & _).
  destruct (script sha256 None w1) as [[w2 m2] c2]. cbn [fst] in *.
  split; congruence.
Qed.

(** A login attempt that does not match, on the login form of a logged-out
    session. *)
Lemma login_page_rejects (uname pwd : string) (w : world) :
  authenticated (auth w) = false ->
  show_register (auth w) = false ->
  (forall u, USERS w !! uname = Some u -> password_hash u <> sha256 pwd) ->
  login_page sha256 (SubmitLogin uname pwd) w
  = (set_auth (set_failed_attempts (failed_attempts (auth w) + 1) (auth w)) w,
     [st_error (if 3 <=? failed_attempts (auth w) + 1
                then "Too many failed attempts. Please try again later."
                else "Invalid username or password")],
     Stop).
Proof.
  intros Ha Hs Hno. unfold login_page, show_login.
  rewrite Ha. cbn [negb]. rewrite Hs.
  destruct (authenticate_cases uname pwd w) as [(u & Hu & Hh & _)|(_ & ->)].
  - exfalso. exact (Hno u Hu Hh).
  - rewrite login_failed_eq.
    destruct (3 <=? failed_attempts (auth w) + 1); reflexivity.
Qed.

(** Failed attempts add up: after any number of login attempts none of
    which matches an account of the file, the session is still logged out,
    the file is the same, and the counter has grown by the number of
    attempts.  Nothing resets or caps the counter on the way. *)
Theorem failed_logins_accumulate (attempts : list (string * string)) (w : world) :
  authenticated (auth w) = false ->
  show_register (auth w) = false ->
  (forall uname pwd u,
     In (uname, pwd) attempts ->
     load_users sha256 (user_db w) !! uname = Some u ->
     password_hash u <> sha256 pwd) ->
  let w' := session sha256
              (map (fun a => OnLogin (SubmitLogin (fst a) (snd a))) attempts) w in
  failed_attempts (auth w')
  = failed_attempts (auth w) + Z.of_nat (List.length attempts)
  /\ authenticated (auth w') = false
  /\ show_register (auth w') = false
  /\ user_db w' = user_db w.
Proof.
  revert w. induction attempts as [|[uname pwd] attempts IH]; intros w Ha Hs Hno.
  - cbn. repeat split; [lia|exact Ha|exact Hs].
  - cbn [map session fold_left fst snd].
    assert (Hstep : interaction sha256 (OnLogin (SubmitLogin uname pwd)) w
                    = (set_auth (set_failed_attempts (failed_attempts (auth w) + 1)
                                                     (auth w))
                                (reload sha256 w),
                       [st_error (if 3 <=? failed_attempts (auth w) + 1
                                  then "Too many failed attempts. Please try again later."
                                  else "Invalid username or password")])).
    { unfold interaction, script. cbn zeta.
      change (authenticated (auth (reload sha256 w))) with (authenticated (auth w)).
      rewrite Ha. cbn [negb].
      rewrite (login_page_rejects uname pwd (reload sha256 w) Ha Hs);
        [reflexivity|].
      intros u. apply Hno. now left. }
    rewrite Hstep. cbn [fst].
    set (w1 := set_auth _ (reload sha256 w)).
    specialize (IH w1 Ha Hs).
    destruct IH as (Hf & Ha' & Hs' & HD).
    { intros u p usr Hin. apply Hno. now right. }
    unfold session in *. rewrite Hf, Ha', Hs', HD.
    repeat split. cbn [List.length]. cbn. lia.
Qed.

Lemma same_login_refl (w : world) : same_login w w.
Proof.
  repeat split.
Qed.

Lemma same_login_trans (w1 w2 w3 : world) :
  same_login w1 w2 -> same_login w2 w3 -> same_login w1 w3.
Proof.
  unfold same_login. intros (H1 & H2 & H3) (H4 & H5 & H6).
  repeat split; congruence.
Qed.

Lemma register_user_same_login (uname fullname pwd urole : string) (w : world) :
  same_login w (snd (register_user sha256 uname fullname pwd urole w)).
Proof.
  destruct (register_user_cases uname fullname pwd urole w)
    as [(_ & ->)|[(_ & _ & ->)|(_ & _ & _ & ->)]]; repeat split.
Qed.

Lemma remove_selected_same_login (selection : option string) (w : world) :
  same_login w (snd (remove_selected selection w)).
Proof.
  destruct selection as [uname|]; cbn [remove_selected]; [|repeat split].
  destruct (remove_user_cases uname w)
    as [(H1 & ->)|[(H1 & H2 & ->)|[(H1 & H2 & H3 & ->)|(H1 & H2 & H3 & ->)]]];
    repeat split.
Qed.

Lemma admin_panel_same_login (e : option dash_event) (w : world) :
  same_login w (fst (fst (admin_panel sha256 e w))).
Proof.
  unfold admin_panel. destruct (is_admin (auth w)); [|apply same_login_refl].
  destruct e as [[|uname fullname pwd urole|selection|]|];
    try apply same_login_refl.
  - pose proof (register_user_same_login uname fullname pwd urole w) as H.
    destruct (register_user sha256 uname fullname pwd urole w) as [[ok msg] w2].
    cbn [snd] in H. now destruct ok.
  - destruct (1 <? size (USERS w))%nat; [|apply same_login_refl].
    pose proof (remove_selected_same_login selection w) as H.
    destruct (remove_selected selection w) as [[ok msg] w2].
    cbn [snd] in H. now destruct ok.
Qed.

Lemma dashboard_same_login (e : option dash_event) (w : world) :
  e <> Some ClickLogout ->
  same_login w (fst (fst (dashboard sha256 e w))).
Proof.
  intros Hne.
  assert (H : same_login w
                (fst (fst (let '(w1, m1) := flash w in
                           let '(w2, m2, c) := admin_panel sha256 e w1 in
                           (w2, (m1 ++ m2)%list, c))))).
  { destruct (flash_core w) as (_ & _ & Ha & Hn & Hi).
    destruct (flash w) as [w1 m1]. cbn [fst] in Ha, Hn, Hi.
    pose proof (admin_panel_same_login e w1) as Hp.
    destruct (admin_panel sha256 e w1) as [[w2 m2] c]. cbn [fst] in *.
    apply (same_login_trans w w1 w2); [|exact Hp]. now repeat split. }
  unfold dashboard. destruct e as [[| | |]|]; try exact H. contradiction.
Qed.

Lemma script_same_login (e : option page_event) (w : world) :
  authenticated (auth w) = true ->
  e <> Some (OnDashboard ClickLogout) ->
  same_login w (fst (fst (script sha256 e w))).
Proof.
  intros Ha Hne. unfold script. cbn zeta.
  change (authenticated (auth (reload sha256 w))) with (authenticated (auth w)).
  rewrite Ha. cbn [negb].
  assert (Hd : forall e', e' <> Some ClickLogout ->
                          same_login w (fst (fst (dashboard sha256 e' (reload sha256 w)))))
    by (intros e' He'; apply (dashboard_same_login e' (reload sha256 w) He')).
  destruct e as [[ev|ev]|]; apply Hd; congruence.
Qed.

Lemma interaction_same_login (e : page_event) (w : world) :
  authenticated (auth w) = true ->
  e <> OnDashboard ClickLogout ->
  same_login w (fst (interaction sha256 e w)).
Proof.
  intros Ha Hne. unfold interaction.
  assert (H1 : same_login w (fst (fst (script sha256 (Some e) w))))
    by (apply script_same_login; congruence).
  destruct (script sha256 (Some e) w) as [[w1 m1] c1]. cbn [fst] in H1.
  destruct c1; cbn [fst]; try exact H1.
  assert (Ha1 : authenticated (auth w1) = true)
    by (destruct H1 as (-> & _); exact Ha).
  pose proof (script_same_login None w1 Ha1) as H2.
  destruct (script sha256 None w1) as [[w2 m2] c2]. cbn [fst] in *.
  apply (same_login_trans w w1 w2 H1). apply H2. discriminate.
Qed.

(** Only the logout button ends a login.  A logged-in session stays logged
    in, under the same name and with the same administrator flag, through
    every sequence of interactions that has no logout in it, whatever the
    store and the file hold: the account is checked at login and never
    again, so the session of an account that is no longer in the file goes
    on, and keeps its flag. *)
Theorem login_is_checked_only_once (es : list page_event) (w : world) :
  authenticated (auth w) = true ->
  ~ In (OnDashboard ClickLogout) es ->
  authenticated (auth (session sha256 es w)) = true
  /\ username (auth (session sha256 es w)) = username (auth w)
  /\ is_admin (auth (session sha256 es w)) = is_admin (auth w).
Proof.
  revert w. induction es as [|e es IH]; intros w Ha Hno.
  - cbn. auto.
  - cbn [session fold_left].
    assert (He : e <> OnDashboard ClickLogout)
      by (intros ->; apply Hno; now left).
    destruct (interaction_same_login e w Ha He) as (H1 & H2 & H3).
    assert (Ha1 : authenticated (auth (fst (interaction sha256 e w))) = true)
      by congruence.
    destruct (IH (fst (interaction sha256 e w)) Ha1) as (H4 & H5 & H6).
    { intros H. apply Hno. now right. }
    unfold session in *. repeat split; congruence.
Qed.

End SessionInvariants.

(** *** Further properties of the derived fields and the filter stage *)

(** The Status of a record is EXPIRED or PENDING CLOSURE exactly when its
    Workflow State is present and, trimmed and upper-cased, is that word; a
    missing state has no Status. *)
Theorem Status_iff_trimmed_upper (r : permit) (st : string) :
  Status r = Some st <->
  (st = "EXPIRED" \/ st = "PENDING CLOSURE")
  /\ exists s, workflow_state r = Some s
               /\ Text.str_upper (Text.str_strip s) = st.
Proof.
  unfold Status. destruct (workflow_state r) as [s|]; cbn [Text.str_of_cell].
  - destruct (String.eqb_spec (Text.str_upper (Text.str_strip s)) "PENDING CLOSURE")
      as [Hp|Hp].
    + split.
      * intros [= <-]. split; [now right|]. eauto.
      * intros (_ & s' & [= <-] & <-). now rewrite Hp.
    + destruct (String.eqb_spec (Text.str_upper (Text.str_strip s)) "EXPIRED")
        as [He|He].
      * split.
        -- intros [= <-]. split; [now left|]. eauto.
        -- intros (_ & s' & [= <-] & <-). now rewrite He.
      * split; [discriminate|].
        intros ([-> | ->] & s' & [= <-] & H); contradiction.
  - split; [discriminate|]. intros (_ & s' & H & _). discriminate.
Qed.

(** No record is both Closed and classified: a Closed record has no
    Status, so it is counted in the CLOSED column only. *)
Theorem Closed_has_no_Status (r : permit) :
  Closed r = true -> Status r = None.
Proof.
  unfold Closed, series_eq, series_upper, Status.
  destruct (workflow_state r) as [s|]; [|discriminate].
  intros H. apply String.eqb_eq in H. cbn [Text.str_of_cell].
  rewrite (upper_CLOSED_has_no_padding s H), H. reflexivity.
Qed.

Lemma filter_is_sublist {A : Type} (p : A -> bool) (l : list A) :
  sublist (List.filter p l) l.
Proof.
  induction l as [|x l IH]; cbn; [constructor|].
  destruct (p x); now constructor.
Qed.

Lemma department_filter_is_sublist (departments : list string) (l : list permit) :
  sublist (department_filter departments l) l.
Proof.
  destruct departments; cbn [department_filter];
    [reflexivity|apply filter_is_sublist].
Qed.

(** The working subset is a part of the globally filtered frame, which is a
    part of the uploaded one: rows are dropped, never added, reordered or
    repeated. *)
Theorem filter_stage_only_drops_rows
  (has_created_date : bool) (global_range results_range : Z * Z)
  (departments : list string) (df_raw : list permit) :
  let '(df, filtered_df) :=
    filter_stage has_created_date global_range results_range departments df_raw in
  sublist filtered_df df /\ sublist df df_raw.
Proof.
  unfold filter_stage. destruct has_created_date; split.
  - etransitivity; [apply department_filter_is_sublist|apply filter_is_sublist].
  - apply filter_is_sublist.
  - apply department_filter_is_sublist.
  - reflexivity.
Qed.

Lemma filter_filter {A : Type} (p q : A -> bool) (l : list A) :
  List.filter p (List.filter q l) = List.filter (fun x => q x && p x) l.
Proof.
  induction l as [|x l IH]; cbn; [reflexivity|].
  destruct (q x); cbn; [destruct (p x)|]; now rewrite IH.
Qed.

(** The second date range narrows the first: with a Created Date column
    the working subset is the department filter of the rows dated within both
    ranges, that is from the later start to the earlier end. *)
Theorem filter_stage_intersects_ranges
  (global_range results_range : Z * Z) (departments : list string)
  (df_raw : list permit) :
  snd (filter_stage true global_range results_range departments df_raw)
  = department_filter departments
      (date_filter (Z.max (fst global_range) (fst results_range))
                   (Z.min (snd global_range) (snd results_range))
                   df_raw).
Proof.
  unfold filter_stage. cbn [snd]. f_equal.
  unfold date_filter. rewrite filter_filter. apply filter_ext.
  intros r. unfold date_mask, to_datetime, day_ns.
  destruct (created_date r) as [d|]; [|reflexivity].
  destruct global_range as [a b], results_range as [c e]. cbn [fst snd].
  repeat match goal with
         | |- context [?x <=? ?y] => destruct (Z.leb_spec x y)
         end; cbn; try reflexivity; lia.
Qed.

Lemma In_unique (s : string) (l : list string) : In s (unique l) <-> In s l.
Proof.
  induction l as [|k l IH]; cbn [unique]; [reflexivity|].
  cbn [In]. rewrite filter_In, IH.
  destruct (String.eqb_spec s k) as [->|Hne]; cbn.
  - split; auto.
  - split; [tauto|]. intros [H|H]; [congruence|auto].
Qed.

(** Selecting every department the selector offers is not selecting none:
    it keeps the rows that have a Department and drops those that do not. *)
Theorem all_departments_selected_drops_missing
  (df filtered_df : list permit) :
  (forall r, In r filtered_df -> In r df) ->
  department_options df <> [] ->
  department_filter (department_options df) filtered_df
  = List.filter (fun r => notna (department r)) filtered_df.
Proof.
  intros Hsub Hne.
  destruct (department_options df) as [|d0 ds] eqn:E; [contradiction|].
  cbn [department_filter]. rewrite <- E. apply filter_ext_in.
  intros r Hr. unfold isin. destruct (department r) as [d|] eqn:Hd; [|reflexivity].
  cbn [notna]. apply existsb_exists. exists d. split; [|apply String.eqb_refl].
  unfold department_options. apply In_unique, In_omap.
  exists r. split; [now apply Hsub|exact Hd].
Qed.

(** *** Further properties of the summary table *)

(** Keys kept in increasing order without repetition, for any insertion
    that follows the pattern of [insert_unique]. *)
Section SortedKeys.

Context {K : Type} (cmp : K -> K -> comparison) (ins : K -> list K -> list K).

Hypothesis ins_nil : forall a, ins a [] = [a].
Hypothesis ins_cons :
  forall a b l,
    ins a (b :: l)
    = match cmp a b with
      | Lt => a :: b :: l
      | Eq => b :: l
      | Gt => b :: ins a l
      end.
Hypothesis cmp_eq : forall a b, cmp a b = Eq -> a = b.
Hypothesis cmp_antisym : forall a b, cmp a b = CompOpp (cmp b a).
Hypothesis cmp_trans : forall a b c, cmp a b = Lt -> cmp b c = Lt -> cmp a c = Lt.

Lemma In_ins (a b : K) (l : list K) : In b (ins a l) <-> a = b \/ In b l.
Proof.
  induction l as [|k l IH].
  - rewrite ins_nil. reflexivity.
  - rewrite ins_cons. destruct (cmp a k) eqn:E; cbn [In].
    + apply cmp_eq in E. subst k. tauto.
    + tauto.
    + rewrite IH. tauto.
Qed.

Lemma increasing_ins (a : K) (l : list K) :
  Sorted.StronglySorted (fun a b => cmp a b = Lt) l ->
  Sorted.StronglySorted (fun a b => cmp a b = Lt) (ins a l).
Proof.
  induction l as [|k l IH]; intros Hs.
  - rewrite ins_nil. constructor; constructor.
  - rewrite ins_cons. inversion Hs as [|k' l' Hl Hk]; subst.
    destruct (cmp a k) eqn:E.
    + exact Hs.
    + constructor; [exact Hs|]. constructor; [exact E|].
      rewrite List.Forall_forall in Hk. apply List.Forall_forall. intros c Hc.
      apply (cmp_trans a k c E). now apply Hk.
    + constructor; [now apply IH|].
      apply List.Forall_forall. intros c Hc. apply In_ins in Hc.
      destruct Hc as [<-|Hc].
      * rewrite cmp_antisym, E. reflexivity.
      * rewrite List.Forall_forall in Hk. now apply Hk.
Qed.

Lemma increasing_fold_ins (l : list K) :
  Sorted.StronglySorted (fun a b => cmp a b = Lt) (fold_right ins [] l).
Proof.
  induction l as [|a l IH]; cbn; [constructor|now apply increasing_ins].
Qed.

Lemma increasing_NoDup (l : list K) :
  Sorted.StronglySorted (fun a b => cmp a b = Lt) l -> List.NoDup l.
Proof.
  induction 1 as [|a l Hl IH Ha]; constructor; [|exact IH].
  intros Hin. rewrite List.Forall_forall in Ha. specialize (Ha a Hin).
  pose proof (cmp_antisym a a) as H. rewrite Ha in H. discriminate H.
Qed.

Lemma In_fold_ins (b : K) (l : list K) : In b (fold_right ins [] l) <-> In b l.
Proof.
  induction l as [|a l IH]; cbn; [reflexivity|].
  rewrite In_ins, IH. reflexivity.
Qed.

End SortedKeys.

Lemma string_compare_trans (a b c : string) :
  String.compare a b = Lt -> String.compare b c = Lt -> String.compare a c = Lt.
Proof.
  intros H1 H2.
  apply OrderedTypeEx.String_as_OT.cmp_lt in H1.
  apply OrderedTypeEx.String_as_OT.cmp_lt in H2.
  apply OrderedTypeEx.String_as_OT.cmp_lt.
  eapply OrderedTypeEx.String_as_OT.lt_trans; eassumption.
Qed.

(** The keys of a [groupby] come sorted and without repetition. *)
Lemma sort_unique_increasing (l : list string) :
  Sorted.StronglySorted (fun a b => String.compare a b = Lt) (sort_unique l).
Proof.
  apply (increasing_fold_ins String.compare insert_unique); try reflexivity.
  - apply String.compare_eq_iff.
  - apply String.compare_antisym.
  - apply string_compare_trans.
Qed.

Lemma sort_unique_NoDup (l : list string) : List.NoDup (sort_unique l).
Proof.
  apply (increasing_NoDup String.compare).
  - apply String.compare_antisym.
  - apply sort_unique_increasing.
Qed.

Lemma count_if_cons {A : Type} (p : A -> bool) (x : A) (l : list A) :
  count_if p (x :: l) = (if p x then 1 else 0) + count_if p l.
Proof.
  unfold count_if. cbn [List.filter]. destruct (p x); cbn [List.length]; lia.
Qed.

Lemma count_if_none {A : Type} (p : A -> bool) (l : list A) :
  (forall x, In x l -> p x = false) -> count_if p l = 0.
Proof.
  induction l as [|x l IH]; intros H; [reflexivity|].
  rewrite count_if_cons, (H x (or_introl eq_refl)), IH; [reflexivity|].
  intros y Hy. apply H. now right.
Qed.

Lemma count_if_ext_in {A : Type} (p q : A -> bool) (l : list A) :
  (forall x, In x l -> p x = q x) -> count_if p l = count_if q l.
Proof.
  intros H. unfold count_if. f_equal. f_equal. now apply filter_ext_in.
Qed.

(** Counting group by group: when no row belongs to two of the keys, the
    counts of the groups add up to the number of rows that belong to one. *)
Lemma sum_of_group_counts {A K : Type} (m : K -> A -> bool)
  (keys : list K) (l : list A) :
  List.NoDup keys ->
  (forall k k' x, m k x = true -> m k' x = true -> k = k') ->
  sumZ (map (fun k => count_if (m k) l) keys)
  = count_if (fun x => existsb (fun k => m k x) keys) l.
Proof.
  intros Hnd Huniq. induction Hnd as [|k keys Hk Hnd IH]; cbn [map sumZ fold_right].
  - symmetry. now apply count_if_none.
  - fold (sumZ (map (fun k0 => count_if (m k0) l) keys)). rewrite IH.
    clear IH. induction l as [|x l IHl]; [reflexivity|].
    rewrite !count_if_cons. cbn [existsb] in *.
    destruct (m k x) eqn:E; cbn [orb].
    + assert (Hnone : existsb (fun k0 => m k0 x) keys = false).
      { apply not_true_is_false. intros H. apply existsb_exists in H.
        destruct H as (k' & Hin & Hm). apply Hk.
        now rewrite (Huniq k k' x E Hm). }
      rewrite Hnone. lia.
    + destruct (existsb (fun k0 => m k0 x) keys); lia.
Qed.

Lemma get_cell_map_absent (f : string -> Z) (cols : list string) (c : string) :
  ~ In c cols -> get_cell cols (map f cols) c = None.
Proof.
  induction cols as [|k cols IH]; cbn; [reflexivity|].
  intros H. destruct (String.eqb_spec k c) as [->|Hne]; [tauto|].
  apply IH. tauto.
Qed.

Lemma find_label_map_absent (F : string -> list Z) (keys : list string) (a : string) :
  ~ In a keys ->
  List.find (fun r => String.eqb (fst r) a) (map (fun k => (k, F k)) keys) = None.
Proof.
  induction keys as [|k keys IH]; cbn; [reflexivity|].
  intros H. destruct (String.eqb_spec k a) as [->|Hne]; [tauto|].
  apply IH. tauto.
Qed.

Lemma series_eq_notna (x : option string) (c : string) :
  series_eq x c = true -> notna x = true.
Proof.
  destruct x; [reflexivity|discriminate].
Qed.

(** The cells of a row of the pivot, whether the Area has a row or not. *)
Lemma row_values_pivot (fdf : list arow) (a : string) :
  row_values (pivot fdf) a = map (department_count fdf a) dept_cols.
Proof.
  pose proof (rows_pivot fdf) as Hrows. cbn zeta in Hrows.
  set (grouped := List.filter (fun x => notna (department (base x))) fdf) in *.
  set (depts := sort_unique (omap (fun x => department (base x)) grouped)) in *.
  unfold row_values. rewrite Hrows.
  destruct (in_dec string_dec a (sort_unique (map Area grouped))) as [Ha|Ha].
  - rewrite (find_label_map _ _ a Ha). cbn [snd]. apply map_ext. intros c.
    unfold department_count.
    destruct (in_dec string_dec c depts) as [Hc|Hc].
    + rewrite (get_cell_map _ _ c Hc). cbn [default].
      unfold grouped. rewrite count_if_filter. apply count_if_ext. intros x.
      destruct (department (base x)); cbn; [now rewrite andb_true_r|].
      now rewrite !andb_false_r.
    + rewrite (get_cell_map_absent _ _ c Hc). cbn [default]. symmetry.
      apply count_if_none. intros x Hx.
      destruct (series_eq (department (base x)) c) eqn:E;
        [|now rewrite andb_false_r].
      exfalso. apply Hc. apply In_sort_unique, In_omap. exists x.
      split.
      * apply filter_In. split; [exact Hx|]. now apply (series_eq_notna _ c).
      * unfold series_eq in E. destruct (department (base x)) as [d|];
          [|discriminate]. apply String.eqb_eq in E. now subst.
  - rewrite (find_label_map_absent _ _ a Ha).
    change (columns (pivot fdf)) with dept_cols. apply map_ext. intros c.
    symmetry. apply count_if_none. intros x Hx.
    destruct (String.eqb_spec (Area x) a) as [Hxa|Hxa]; [|reflexivity].
    destruct (series_eq (department (base x)) c) eqn:E; [|reflexivity].
    exfalso. apply Ha. apply In_sort_unique. rewrite <- Hxa. apply in_map.
    apply filter_In. split; [exact Hx|]. now apply (series_eq_notna _ c).
Qed.

(** The cells of a row of the status counts, whether the Area has a row or
    not. *)
Lemma row_values_status_counts (fdf : list arow) (a : string) :
  row_values (status_counts fdf) a
  = map (status_count fdf a) (columns (status_counts fdf)).
Proof.
  unfold row_values. cbn [status_counts rows columns].
  set (classified := List.filter (fun x => notna (Status (base x))) fdf).
  set (statuses := sort_unique (omap (fun x => Status (base x)) classified)).
  assert (Hcount : forall s,
             count_if (fun x => String.eqb (Area x) a
                                && series_eq (Status (base x)) s) classified
             = status_count fdf a s).
  { intros s. unfold classified, status_count. rewrite count_if_filter.
    apply count_if_ext. intros x.
    destruct (Status (base x)); cbn; [now rewrite andb_true_r|].
    now rewrite !andb_false_r. }
  destruct (in_dec string_dec a (sort_unique (map Area classified))) as [Ha|Ha].
  - rewrite (find_label_map _ _ a Ha). cbn [snd]. apply map_ext. exact Hcount.
  - rewrite (find_label_map_absent _ _ a Ha). apply map_ext. intros s.
    symmetry. apply count_if_none. intros x Hx.
    destruct (String.eqb_spec (Area x) a) as [Hxa|Hxa]; [|reflexivity].
    destruct (series_eq (Status (base x)) s) eqn:E; [|reflexivity].
    exfalso. apply Ha. apply In_sort_unique. rewrite <- Hxa. apply in_map.
    apply filter_In. split; [exact Hx|]. now apply (series_eq_notna _ s).
Qed.

(** A Status that is no column of the status counts is the Status of no
    record. *)
Lemma status_count_absent (fdf : list arow) (a s : string) :
  ~ In s (columns (status_counts fdf)) -> status_count fdf a s = 0.
Proof.
  intros Hs. apply count_if_none. intros x Hx.
  destruct (series_eq (Status (base x)) s) eqn:E; [|now rewrite andb_false_r].
  exfalso. apply Hs. cbn [status_counts columns].
  apply In_sort_unique, In_omap. exists x. split.
  - apply filter_In. split; [exact Hx|]. now apply (series_eq_notna _ s).
  - unfold series_eq in E. destruct (Status (base x)) as [d|]; [|discriminate].
    apply String.eqb_eq in E. now subst.
Qed.

Lemma rows_ensure_column (col : string) (t : table) :
  rows (ensure_column col t)
  = if existsb (String.eqb col) (header t :: columns t)
    then rows t else map (fun r => (fst r, (snd r ++ [0])%list)) (rows t).
Proof.
  unfold ensure_column. destruct (existsb _ _); reflexivity.
Qed.

(** The table before the TOTAL row, row by row: one row per Area of
    [summary_areas], holding under each column the count of that column. *)
Lemma area_table_rows (fdf : list arow) :
  exists t,
    area_table fdf = Some t
    /\ rows t = map (fun a => (a, map (summary_count fdf a) (columns t)))
                    (summary_areas fdf).
Proof.
  unfold area_table.
  pose proof (join_left_closed_counts fdf) as Hj. cbn zeta in Hj. rewrite Hj.
  clear Hj. cbn [mbind option_bind].
  eexists. split; [reflexivity|].
  set (t1 := rename_column "Closed" "CLOSED" _).
  assert (Hh : header t1 = "Area") by reflexivity.
  assert (Hc : columns t1
               = map (fun c => if String.eqb c "Closed" then "CLOSED" else c)
                     ((dept_cols ++ columns (status_counts fdf)) ++ ["Closed"])%list)
    by reflexivity.
  assert (Hr : rows t1
               = map (fun a =>
                        (a, ((map (department_count fdf a) dept_cols
                              ++ map (status_count fdf a) (columns (status_counts fdf)))
                             ++ [closed_count fdf a])%list))
                     (summary_areas fdf)).
  { unfold t1. cbn [rename_column rows join_outer]. rewrite map_map.
    apply map_ext. intros a. cbn [fst snd].
    now rewrite row_values_pivot, row_values_status_counts. }
  cbn [fold_left].
  repeat first [ rewrite rows_ensure_column | rewrite columns_ensure_column
               | rewrite header_ensure_column ].
  rewrite Hh, Hc, Hr. clear Hh Hc Hr t1.
  pose proof (status_count_absent fdf) as Hz.
  unfold summary_count.
  generalize dependent (status_count fdf). intros sc Hz.
  generalize (department_count fdf) (closed_count fdf). intros pc cl.
  generalize (summary_areas fdf). intros areas.
  destruct (columns_status_counts fdf) as [E|[E|[E|E]]]; rewrite E in *;
    cbn; rewrite ?map_map; cbn; apply map_ext; intros a; f_equal;
    repeat f_equal.
  all: symmetry; apply Hz; intros H; cbn in H;
    repeat (destruct H as [H|H]; [discriminate H|]); exact H.
Qed.

Lemma In_summary_areas (fdf : list arow) (a : string) :
  In a (summary_areas fdf) <->
  exists x, In x fdf /\ Area x = a
            /\ notna (department (base x)) || notna (Status (base x)) = true.
Proof.
  unfold summary_areas. rewrite In_sort_unique, in_app_iff.
  pose proof (rows_pivot fdf) as Hrows. cbn zeta in Hrows. rewrite Hrows.
  cbn [status_counts rows]. rewrite !map_map. cbn [fst]. rewrite !map_id.
  rewrite !In_sort_unique, !in_map_iff. split.
  - intros [(x & Hx & Hin)|(x & Hx & Hin)]; apply filter_In in Hin;
      destruct Hin as [Hin Hp]; exists x; rewrite Hp;
      repeat split; auto using orb_true_r.
  - intros (x & Hin & Hx & Hp). apply orb_true_iff in Hp.
    destruct Hp as [Hp|Hp]; [left|right]; exists x;
      (split; [exact Hx|]); apply filter_In; auto.
Qed.

Lemma existsb_eqb_In (c : string) (l : list string) :
  existsb (String.eqb c) l = true <-> In c l.
Proof.
  rewrite existsb_exists. split.
  - intros (x & Hx & He). apply String.eqb_eq in He. now subst.
  - intros H. exists c. split; [exact H|apply String.eqb_refl].
Qed.

Lemma area_table_facts (fdf : list arow) :
  exists t,
    area_table fdf = Some t
    /\ well_formed t
    /\ (forall c, In c (columns t) <-> In c all_columns)
    /\ rows t = map (fun a => (a, map (summary_count fdf a) (columns t)))
                    (summary_areas fdf).
Proof.
  destruct (area_table_shape fdf) as (t & Ht & Hwf & Hcols).
  destruct (area_table_rows fdf) as (t' & Ht' & Hrows).
  rewrite Ht in Ht'. injection Ht' as <-. eauto.
Qed.

(** The summary has one row per Area in which some record has a Department
    or a Status, in increasing order of the label and without repetition.  An
    Area whose records have neither gets no row, Closed or not. *)
Theorem summary_rows_are_areas_with_department_or_status (fdf : list arow) :
  exists t,
    area_table fdf = Some t
    /\ Sorted.StronglySorted (fun a b => String.compare a b = Lt)
                             (map fst (rows t))
    /\ forall a,
         In a (map fst (rows t)) <->
         exists x, In x fdf /\ Area x = a
                   /\ notna (department (base x)) || notna (Status (base x)) = true.
Proof.
  destruct (area_table_facts fdf) as (t & Ht & _ & _ & Hrows).
  exists t. split; [exact Ht|].
  assert (Hl : map fst (rows t) = summary_areas fdf).
  { rewrite Hrows, map_map. cbn [fst]. apply map_id. }
  rewrite Hl. split.
  - apply sort_unique_increasing.
  - apply In_summary_areas.
Qed.

(** Each cell of a row of the summary is a count of the records of the
    row's Area: under a department column those with that Department and a
    Permit Number, under EXPIRED and PENDING CLOSURE those with that Status
    (0 when no record has it), under CLOSED those that are Closed. *)
Theorem summary_cells_count_records (fdf : list arow) :
  exists t,
    area_table fdf = Some t
    /\ forall a,
         In a (map fst (rows t)) ->
         (forall c,
            In c dept_cols ->
            get_cell (columns t) (row_values t a) c
            = Some (count_if (fun x => String.eqb (Area x) a
                                       && series_eq (department (base x)) c
                                       && notna (permit_number (base x)))
                             fdf))
         /\ (forall s,
               s = "EXPIRED" \/ s = "PENDING CLOSURE" ->
               get_cell (columns t) (row_values t a) s
               = Some (count_if (fun x => String.eqb (Area x) a
                                          && series_eq (Status (base x)) s)
                                fdf))
         /\ get_cell (columns t) (row_values t a) "CLOSED"
            = Some (count_if (fun x => String.eqb (Area x) a && Closed (base x))
                             fdf).
Proof.
  destruct (area_table_facts fdf) as (t & Ht & _ & Hcols & Hrows).
  exists t. split; [exact Ht|]. intros a Ha.
  assert (Hin : In a (summary_areas fdf)).
  { rewrite Hrows, map_map in Ha. cbn [fst] in Ha. now rewrite map_id in Ha. }
  assert (Hv : row_values t a = map (summary_count fdf a) (columns t)).
  { unfold row_values. rewrite Hrows.
    now rewrite (find_label_map
                   (fun a => map (summary_count fdf a) (columns t)) _ a Hin). }
  rewrite Hv.
  assert (Hcell : forall c, In c all_columns ->
                            get_cell (columns t) (map (summary_count fdf a) (columns t)) c
                            = Some (summary_count fdf a c)).
  { intros c Hc. apply get_cell_map. now apply Hcols. }
  split; [|split].
  - intros c Hc. rewrite Hcell by (apply in_or_app; now left).
    unfold summary_count.
    now rewrite (proj2 (existsb_eqb_In c dept_cols) Hc).
  - intros s [-> | ->]; (rewrite Hcell; [reflexivity|]);
      apply in_or_app; right; cbn; tauto.
  - rewrite Hcell; [reflexivity|]. apply in_or_app. right. cbn. tauto.
Qed.

Lemma existsb_key_and (k : string) (b : bool) (keys : list string) :
  existsb (fun a => String.eqb k a && b) keys
  = b && existsb (String.eqb k) keys.
Proof.
  induction keys as [|a keys IH]; cbn; [now rewrite andb_false_r|].
  rewrite IH. destruct b, (String.eqb k a); reflexivity.
Qed.

(** The sum of a column of counts over the rows of the summary. *)
Lemma total_of_counts (fdf : list arow) (p : arow -> bool) :
  sumZ (map (fun a => count_if (fun x => String.eqb (Area x) a && p x) fdf)
            (summary_areas fdf))
  = count_if (fun x => p x && existsb (String.eqb (Area x)) (summary_areas fdf))
             fdf.
Proof.
  rewrite (sum_of_group_counts (fun a x => String.eqb (Area x) a && p x)).
  - apply count_if_ext. intros x. apply existsb_key_and.
  - apply sort_unique_NoDup.
  - intros k k' x H1 H2. apply andb_true_iff in H1, H2.
    destruct H1 as [H1 _], H2 as [H2 _].
    apply String.eqb_eq in H1, H2. congruence.
Qed.

Lemma column_total (fdf : list arow) (c : string) (p q : arow -> bool) :
  (forall a, summary_count fdf a c
             = count_if (fun x => String.eqb (Area x) a && p x) fdf) ->
  (forall x, In x fdf ->
             p x && existsb (String.eqb (Area x)) (summary_areas fdf) = q x) ->
  sumZ (map (fun a => summary_count fdf a c) (summary_areas fdf))
  = count_if q fdf.
Proof.
  intros H1 H2. rewrite (map_ext _ _ H1), total_of_counts.
  now apply count_if_ext_in.
Qed.

(** The cells of the TOTAL row are counts over the whole working subset:
    under a department column the records with that Department and a Permit
    Number, under EXPIRED and PENDING CLOSURE the records with that Status.
    Under CLOSED it is the Closed records whose Area has a row, that is an
    Area where some record has a Department or a Status. *)
Theorem total_row_counts_records (fdf : list arow) :
  exists t body totals,
    final_table fdf = Some t
    /\ rows t = (body ++ [("TOTAL", totals)])%list
    /\ (forall c,
          In c dept_cols ->
          get_cell (columns t) totals c
          = Some (count_if (fun x => series_eq (department (base x)) c
                                     && notna (permit_number (base x)))
                           fdf))
    /\ (forall s,
          s = "EXPIRED" \/ s = "PENDING CLOSURE" ->
          get_cell (columns t) totals s
          = Some (count_if (fun x => series_eq (Status (base x)) s) fdf))
    /\ get_cell (columns t) totals "CLOSED"
       = Some (count_if
                 (fun x =>
                    Closed (base x)
                    && existsb (fun y => String.eqb (Area y) (Area x)
                                         && (notna (department (base y))
                                             || notna (Status (base y))))
                               fdf)
                 fdf).
Proof.
  destruct (area_table_facts fdf) as (t0 & Ht & Hwf & Hcols & Hrows).
  unfold final_table. rewrite Ht. cbn [mbind option_bind].
  rewrite (append_total_Some t0 Hwf Hcols). cbn [mbind option_bind columns rows].
  eexists. eexists. eexists. split; [reflexivity|]. cbn [rows columns].
  split; [reflexivity|].
  set (colsum := fun c =>
                   sumZ (map (fun r => default 0 (get_cell (columns t0) (snd r) c))
                             (rows t0))).
  assert (Hsum : forall c, In c all_columns ->
                           get_cell (columns t0) (map colsum (columns t0)) c
                           = Some (sumZ (map (fun a => summary_count fdf a c)
                                             (summary_areas fdf)))).
  { intros c Hc. apply Hcols in Hc. rewrite (get_cell_map colsum _ c Hc).
    f_equal. unfold colsum. rewrite Hrows, map_map. cbn [snd]. f_equal.
    apply map_ext. intros a.
    now rewrite (get_cell_map (summary_count fdf a) _ c Hc). }
  assert (Hrow : forall x,
             existsb (String.eqb (Area x)) (summary_areas fdf)
             = existsb (fun y => String.eqb (Area y) (Area x)
                                 && (notna (department (base y))
                                     || notna (Status (base y))))
                       fdf).
  { intros x. apply eq_true_iff_eq.
    rewrite existsb_eqb_In, In_summary_areas, existsb_exists.
    split.
    - intros (y & Hy & H1 & H2). exists y. split; [exact Hy|].
      apply andb_true_iff. split; [|exact H2]. now apply String.eqb_eq.
    - intros (y & Hy & H1). exists y.
      apply andb_true_iff in H1. destruct H1 as [H1 H3].
      apply String.eqb_eq in H1. tauto. }
  assert (Hself : forall x, In x fdf ->
             notna (department (base x)) || notna (Status (base x)) = true ->
             existsb (String.eqb (Area x)) (summary_areas fdf) = true).
  { intros x Hx Hp. apply existsb_eqb_In, In_summary_areas. eauto. }
  split; [|split].
  - intros c Hc. rewrite Hsum by (apply in_or_app; now left). f_equal.
    apply (column_total fdf c
             (fun x => series_eq (department (base x)) c
                       && notna (permit_number (base x)))).
    + intros a. unfold summary_count.
      rewrite (proj2 (existsb_eqb_In c dept_cols) Hc).
      apply count_if_ext. intros x. now rewrite andb_assoc.
    + intros x Hx.
      destruct (series_eq (department (base x)) c) eqn:E; [|reflexivity].
      rewrite (Hself x Hx); [now rewrite andb_true_r|].
      now rewrite (series_eq_notna _ c E).
  - intros s Hs.
    rewrite Hsum by (apply in_or_app; right; destruct Hs as [-> | ->]; cbn; tauto).
    f_equal.
    apply (column_total fdf s (fun x => series_eq (Status (base x)) s)).
    + intros a. destruct Hs as [-> | ->]; reflexivity.
    + intros x Hx.
      destruct (series_eq (Status (base x)) s) eqn:E; [|reflexivity].
      rewrite (Hself x Hx); [reflexivity|].
      rewrite (series_eq_notna _ s E). apply orb_true_r.
  - rewrite Hsum by (apply in_or_app; right; cbn; tauto). f_equal.
    apply (column_total fdf "CLOSED" (fun x => Closed (base x))).
    + intros a. reflexivity.
    + intros x Hx. now rewrite Hrow.
Qed.

(** *** Further properties of the plant-wise summary *)

Lemma str_lower_append (a b : string) :
  Text.str_lower (a ++ b) = Text.str_lower a ++ Text.str_lower b.
Proof.
  induction a as [|x a IH]; [reflexivity|].
  rewrite append_cons. cbn [Text.str_lower]. rewrite append_cons. now f_equal.
Qed.

Lemma flatten_lower_regex (r : Re.regex) :
  Re.flatten (Re.lower_regex r) = Text.str_lower (Re.flatten r).
Proof.
  induction r as [|c|r1 IH1 r2 IH2|r1 IH1]; cbn; try reflexivity.
  - now rewrite str_lower_append, IH1, IH2.
  - exact IH1.
Qed.

(** Matching without regard to case is matching the lower-cased pattern on
    the lower-cased text. *)
Lemma match_at_ignorecase (r : Re.regex) (s : string) :
  option_map Text.str_lower (Re.match_at true r s)
  = Re.match_at false (Re.lower_regex r) (Text.str_lower s).
Proof.
  revert s. induction r as [|c|r1 IH1 r2 IH2|r1 IH1]; intros s; cbn.
  - reflexivity.
  - destruct s as [|d s]; cbn; [reflexivity|].
    destruct (Ascii.eqb (Text.lower_ascii c) (Text.lower_ascii d)); reflexivity.
  - rewrite <- IH1. destruct (Re.match_at true r1 s) as [s'|]; cbn;
      [apply IH2|reflexivity].
  - apply IH1.
Qed.

Lemma search_ignorecase (r : Re.regex) (s : string) :
  Re.search true r s = Re.search false (Re.lower_regex r) (Text.str_lower s).
Proof.
  induction s as [|d s IH]; cbn [Re.search Text.str_lower].
  - pose proof (match_at_ignorecase r EmptyString) as H. cbn [Text.str_lower] in H.
    rewrite <- H. destruct (Re.match_at true r EmptyString); reflexivity.
  - pose proof (match_at_ignorecase r (String d s)) as H.
    cbn [Text.str_lower] in H. rewrite <- H.
    destruct (Re.match_at true r (String d s)); [reflexivity|exact IH].
Qed.

(** For every plant of the selector that has no rule of its own, the plant
    filter keeps exactly the rows whose Responsibility Areas cell contains the
    plant's name, letter case aside: none of these names holds a character
    that a regular expression reads in a special way. *)
Theorem default_plant_rule_is_substring_test
  (selected_plant : string) (filtered_df : list arow) :
  In selected_plant plant_options ->
  selected_plant <> "CPP" ->
  selected_plant <> "NCU" ->
  selected_plant <> "PP" ->
  plant_df selected_plant filtered_df
  = Some (List.filter (fun x => contains_ignoring_case selected_plant (areas_of x))
                      filtered_df).
Proof.
  intros Hin H1 H2 H3. unfold plant_df.
  destruct (String.eqb_spec selected_plant "CPP"); [contradiction|].
  destruct (String.eqb_spec selected_plant "NCU"); [contradiction|].
  destruct (String.eqb_spec selected_plant "PP"); [contradiction|].
  assert (Hre : exists r, Re.re_compile selected_plant = Some r
                          /\ Re.flatten r = selected_plant).
  { unfold plant_options in Hin. cbn [In] in Hin.
    repeat (destruct Hin as [<-|Hin];
            [first [ contradiction
                   | eexists; split; [vm_compute; reflexivity|reflexivity] ]|]).
    contradiction. }
  destruct Hre as (r & Hr & Hf). unfold Re.str_contains. rewrite Hr.
  cbn [mbind option_bind negb]. f_equal. apply filter_ext. intros x.
  unfold contains_ignoring_case. destruct (areas_of x) as [s|]; [|reflexivity].
  now rewrite search_ignorecase, search_flatten, flatten_lower_regex, Hf.
Qed.

Lemma pair_compare_eq (p q : string * string) : pair_compare p q = Eq -> p = q.
Proof.
  unfold pair_compare. destruct p as [a b], q as [c d]. cbn [fst snd].
  destruct (String.compare a c) eqn:E; try discriminate.
  intros H. apply String.compare_eq_iff in E, H. now subst.
Qed.

Lemma pair_compare_antisym (p q : string * string) :
  pair_compare p q = CompOpp (pair_compare q p).
Proof.
  unfold pair_compare. rewrite (String.compare_antisym (fst q) (fst p)).
  destruct (String.compare (fst p) (fst q)); cbn; try reflexivity.
  apply String.compare_antisym.
Qed.

Lemma string_compare_refl (a : string) : String.compare a a = Eq.
Proof.
  pose proof (String.compare_antisym a a) as H.
  destruct (String.compare a a); [reflexivity|discriminate|discriminate].
Qed.

Lemma pair_compare_trans (p q r : string * string) :
  pair_compare p q = Lt -> pair_compare q r = Lt -> pair_compare p r = Lt.
Proof.
  unfold pair_compare. destruct p as [a b], q as [c d], r as [e f].
  cbn [fst snd].
  destruct (String.compare a c) eqn:E1; try discriminate;
    destruct (String.compare c e) eqn:E2; try discriminate; intros H1 H2.
  - apply String.compare_eq_iff in E1, E2. subst.
    rewrite string_compare_refl. now apply (string_compare_trans b d f).
  - apply String.compare_eq_iff in E1. subst. now rewrite E2.
  - apply String.compare_eq_iff in E2. subst. now rewrite E1.
  - now rewrite (string_compare_trans a c e E1 E2).
Qed.

(** The keys of the plant-wise groups: the (Area, Department) pairs of the
    rows with a Department, without repetition. *)
Lemma group_keys (pdf : list arow) :
  let keys :=
    fold_right insert_unique_pair []
      (omap (fun x => d ← department (base x); Some (Area x, d)) pdf) in
  List.NoDup keys
  /\ forall a d, In (a, d) keys <->
                 exists x, In x pdf /\ Area x = a /\ department (base x) = Some d.
Proof.
  cbn zeta. split.
  - apply (increasing_NoDup pair_compare); [apply pair_compare_antisym|].
    apply (increasing_fold_ins pair_compare insert_unique_pair);
      try reflexivity.
    + apply pair_compare_eq.
    + apply pair_compare_antisym.
    + apply pair_compare_trans.
  - intros a d.
    rewrite (In_fold_ins pair_compare insert_unique_pair);
      try reflexivity; [|apply pair_compare_eq].
    rewrite In_omap. split.
    + intros (x & Hx & H). destruct (department (base x)) as [d'|] eqn:E;
        [|discriminate]. cbn in H. injection H as <- <-. eauto.
    + intros (x & Hx & <- & Hd). exists x. split; [exact Hx|].
      now rewrite Hd.
Qed.

(** The plant-wise summary of a non-empty [plant_df] ends with the TOTAL
    row, whose count is the number of rows that have a Department: a row
    without one belongs to no group and is not in the total.  Every group
    above it has at least one row and holds the number of rows with its
    Area and Department. *)
Theorem plantwise_total_counts_rows_with_department (pdf : list arow) :
  pdf <> [] ->
  exists groups,
    plantwise_summary pdf
    = Some (groups
            ++ [("TOTAL", EmptyString,
                 count_if (fun x => notna (department (base x))) pdf)])%list
    /\ List.NoDup (map fst groups)
    /\ forall a d n,
         In (a, d, n) groups ->
         n = count_if (fun x => String.eqb (Area x) a
                                && series_eq (department (base x)) d) pdf
         /\ 1 <= n.
Proof.
  intros Hne. destruct pdf as [|x0 pdf0] eqn:Epdf; [contradiction|].
  rewrite <- Epdf in *. clear Hne.
  assert (Hsum : plantwise_summary pdf
                 = Some (group_sizes pdf
                         ++ [("TOTAL", EmptyString,
                              sumZ (map snd (group_sizes pdf)))])%list)
    by (rewrite Epdf; reflexivity).
  destruct (group_keys pdf) as [Hnd Hkeys]. cbn zeta in Hnd, Hkeys.
  set (keys := fold_right insert_unique_pair []
                 (omap (fun x => d ← department (base x); Some (Area x, d)) pdf))
    in *.
  set (m := fun (k : string * string) (x : arow) =>
              String.eqb (Area x) (fst k)
              && series_eq (department (base x)) (snd k)).
  assert (Hg : group_sizes pdf = map (fun k => (fst k, snd k, count_if (m k) pdf)) keys)
    by reflexivity.
  exists (group_sizes pdf). split; [|split].
  - rewrite Hsum. do 4 f_equal.
    rewrite Hg, map_map. cbn [snd].
    rewrite (sum_of_group_counts m keys pdf Hnd).
    + apply count_if_ext_in. intros x Hx.
      destruct (department (base x)) as [d|] eqn:Hd; cbn [notna].
      * apply existsb_exists. exists (Area x, d). split.
        -- apply Hkeys. eauto.
        -- unfold m. cbn [fst snd]. rewrite Hd. cbn.
           now rewrite !String.eqb_refl.
      * apply not_true_is_false. intros H. apply existsb_exists in H.
        destruct H as (k & _ & Hm). unfold m in Hm. rewrite Hd in Hm.
        cbn in Hm. now rewrite andb_false_r in Hm.
    + intros k k' x Hk Hk'. unfold m in Hk, Hk'.
      apply andb_true_iff in Hk, Hk'.
      destruct Hk as [Ha Hd], Hk' as [Ha' Hd'].
      apply String.eqb_eq in Ha, Ha'.
      unfold series_eq in Hd, Hd'.
      destruct (department (base x)) as [d|]; [|discriminate].
      apply String.eqb_eq in Hd, Hd'.
      destruct k, k'. cbn [fst snd] in *. congruence.
  - rewrite Hg, map_map. cbn [fst].
    rewrite (map_ext _ (fun k => k)) by (intros [? ?]; reflexivity).
    now rewrite map_id.
  - intros a d n Hin. rewrite Hg in Hin. apply in_map_iff in Hin.
    destruct Hin as ([a' d'] & [= <- <- <-] & Hk). cbn [fst snd].
    split; [reflexivity|].
    apply Hkeys in Hk. destruct Hk as (x & Hx & Ha & Hd).
    apply (count_if_positive _ _ x Hx). unfold m. cbn [fst snd].
    rewrite Ha, Hd. cbn. now rewrite !String.eqb_refl.
Qed.

(** *** The theorems at concrete inputs *)

(** C2: a padded state.  Trimmed and upper-cased it is CLOSED, and the
    record is not Closed. *)
Lemma Closed_misses_padded_state :
  let r := {| permit_number := Some "P-9"; department := Some "FIRE";
              responsibility_areas := Some "NCU-1";
              workflow_state := Some " closed ";
              created_date := None |} in
  trimmed_upper_state r = Some "CLOSED" /\ Closed r = false.
Proof.
  split; reflexivity.
Qed.



(** C3 on the sample, with two columns shown in another order. *)
Lemma total_row_sums_displayed_columns_witness :
  exists body totals,
    display_table map_area_model sample_subset ["CLOSED"; "CIVIL"]
    = Some {| header := "RESPONSIBILITY AREAS";
              columns := ["CLOSED"; "CIVIL"];
              rows := (body ++ [("TOTAL", totals)])%list |}
    /\ List.length totals = List.length ["CLOSED"; "CIVIL"]
    /\ (forall r, In r body -> List.length (snd r) = List.length ["CLOSED"; "CIVIL"])
    /\ (forall j, (j < List.length ["CLOSED"; "CIVIL"])%nat ->
                  nth j totals 0 = sumZ (map (fun r => nth j (snd r) 0) body)).
Proof.
  apply (total_row_sums_displayed_columns map_area_model sample_subset
           ["CLOSED"; "CIVIL"]).
  intros c [<-|[<-|[]]]; cbn; tauto.
Defined.

(** C9 on the default store, in a session that has failed five times. *)
Lemma authenticate_matching_digest_witness :
  let w := {| USERS := load_users digest_model None;
              user_db := None;
              auth := set_failed_attempts 5 fresh_auth |} in
  exists w',
    authenticate digest_model "admin" "admin123" w = (w', [], Rerun)
    /\ authenticated (auth w') = true
    /\ failed_attempts (auth w') = 0
    /\ username (auth w') = Some "admin"
    /\ USERS w' = USERS w.
Proof.
  apply (authenticate_matching_digest digest_model "admin" "admin123"
           {| name := "Administrator";
              password_hash := digest_model "admin123";
              role := Some "admin" |}).
  - reflexivity.
  - reflexivity.
Defined.



(** The table the sample gives, all columns shown. *)
Example display_table_sample :
  display_table map_area_model sample_subset all_columns
  = Some {| header := "RESPONSIBILITY AREAS";
            columns := all_columns;
            rows := [("CPP", [0; 0; 1; 0; 0; 0; 0; 1; 0; 0]);
                     ("NCU", [0; 1; 0; 0; 0; 0; 0; 0; 0; 1]);
                     ("OTHERS", [0; 0; 0; 0; 0; 1; 0; 0; 1; 0]);
                     ("PP", [0; 0; 0; 0; 0; 0; 0; 0; 0; 1]);
                     ("TOTAL", [0; 1; 1; 0; 0; 1; 0; 1; 1; 2])] |}.
Proof.
  reflexivity.
Qed.

(** The bounds are midnights: a record of the last day is kept at 00:00
    and dropped later in the day. *)
Example date_filter_sample :
  map permit_number (date_filter 19700 19701 sample_subset) = [Some "P-1"].
Proof.
  reflexivity.
Qed.

(** A selection in another case than the stored one keeps nothing. *)
Example department_filter_sample :
  map permit_number (department_filter ["CIVIL"] sample_subset) = [None]
  /\ department_filter [] sample_subset = sample_subset.
Proof.
  split; reflexivity.
Qed.

(** The second registration of a name fails and leaves the store alone. *)
Example register_user_twice :
  let '(r1, w1) := register_user digest_model "bob" "Bob" "pw1" "user"
                                 (start digest_model None) in
  let '(r2, w2) := register_user digest_model "bob" "Bob" "pw1" "user" w1 in
  r1 = (true, "User bob registered successfully!")
  /\ r2 = (false, "Username already exists!")
  /\ w2 = w1
  /\ size (USERS w1) = 2%nat.
Proof.
  vm_compute. repeat split.
Qed.

(** *** The further properties at concrete inputs *)

(** Removing bob leaves the administrator's record as it is. *)
Lemma remove_user_keeps_other_accounts_witness :
  USERS (snd (remove_user "bob" sample_world)) !! "admin"
  = USERS sample_world !! "admin".
Proof.
  apply (remove_user_keeps_other_accounts "bob" "admin" sample_world).
  discriminate.
Defined.

(** bob, registered on the default store, logs in and is no administrator. *)
Lemma registered_user_can_log_in_witness :
  let w1 := snd (register_user digest_model "bob" "Bob" "pw1" "user"
                               (start digest_model None)) in
  exists w2,
    authenticate digest_model "bob" "pw1" w1 = (w2, [], Rerun)
    /\ authenticated (auth w2) = true
    /\ username (auth w2) = Some "bob"
    /\ is_admin (auth w2) = String.eqb "user" "admin"
    /\ failed_attempts (auth w2) = 0.
Proof.
  apply (registered_user_can_log_in digest_model "bob" "Bob" "pw1" "user"
           (start digest_model None)).
  - apply not_elem_of_dom. reflexivity.
  - discriminate.
  - discriminate.
Defined.

(** Registering the name admin again, with another password, leaves the
    administrator's record as it is. *)
Lemma register_user_keeps_accounts_witness :
  USERS (snd (register_user digest_model "admin" "Mallory" "guess" "admin"
                            (start digest_model None))) !! "admin"
  = Some {| name := "Administrator";
            password_hash := digest_model "admin123";
            role := Some "admin" |}.
Proof.
  apply (register_user_keeps_accounts digest_model "admin" "Mallory" "guess"
           "admin" "admin").
  reflexivity.
Defined.

(** bob, logged in, gets nowhere with the form of the administrators. *)
Lemma non_admin_cannot_change_store_witness :
  user_db (fst (interaction digest_model
                  (OnDashboard (SubmitAddUser "eve" "Eve" "pw2" "admin"))
                  sample_world_bob))
  = user_db sample_world_bob
  /\ USERS (fst (interaction digest_model
                   (OnDashboard (SubmitAddUser "eve" "Eve" "pw2" "admin"))
                   sample_world_bob))
     = load_users digest_model (user_db sample_world_bob).
Proof.
  apply (non_admin_cannot_change_store digest_model
           (SubmitAddUser "eve" "Eve" "pw2" "admin") sample_world_bob).
  - reflexivity.
  - reflexivity.
Defined.

(** bob is logged in while the store and the file hold the administrator
    only; he stays logged in through a click, a login event of a page that is
    not shown and a submission to the form of the administrators. *)
Lemma login_is_checked_only_once_witness :
  let w := {| USERS := load_users digest_model None;
              user_db := None;
              auth := auth sample_world_bob |} in
  let es := [OnDashboard OtherWidget;
             OnLogin (SubmitLogin "mallory" "guess");
             OnDashboard (SubmitRemoveUser (Some "admin"))] in
  authenticated (auth (session digest_model es w)) = true
  /\ username (auth (session digest_model es w)) = username (auth w)
  /\ is_admin (auth (session digest_model es w)) = is_admin (auth w).
Proof.
  apply (login_is_checked_only_once digest_model
           [OnDashboard OtherWidget;
            OnLogin (SubmitLogin "mallory" "guess");
            OnDashboard (SubmitRemoveUser (Some "admin"))]
           {| USERS := load_users digest_model None;
              user_db := None;
              auth := auth sample_world_bob |}).
  - reflexivity.
  - cbn [In]. intros [H|[H|[H|[]]]]; discriminate H.
Defined.

(** Four failed attempts on the default store: the counter stands at 4. *)
Lemma failed_logins_accumulate_witness :
  let attempts := [("mallory", "guess"); ("admin", "admin"); ("admin", "1234");
                   ("root", "root")] in
  let w' := session digest_model
              (map (fun a => OnLogin (SubmitLogin (fst a) (snd a))) attempts)
              (start digest_model None) in
  failed_attempts (auth w')
  = failed_attempts (auth (start digest_model None))
    + Z.of_nat (List.length attempts)
  /\ authenticated (auth w') = false
  /\ show_register (auth w') = false
  /\ user_db w' = user_db (start digest_model None).
Proof.
  apply (failed_logins_accumulate digest_model
           [("mallory", "guess"); ("admin", "admin"); ("admin", "1234");
            ("root", "root")]
           (start digest_model None)).
  - reflexivity.
  - reflexivity.
  - intros uname pwd u Hin Hu. cbn [In] in Hin.
    destruct Hin as [H|[H|[H|[H|[]]]]]; injection H as <- <-;
      vm_compute in Hu; try discriminate Hu;
      injection Hu as <-; vm_compute; discriminate.
Defined.

(** A record whose state is closed in lower case: Closed, without Status. *)
Lemma Closed_has_no_Status_witness :
  Status {| permit_number := Some "P-1"; department := Some "civil";
            responsibility_areas := Some "NCU-1";
            workflow_state := Some "closed";
            created_date := None |} = None.
Proof.
  apply (Closed_has_no_Status
           {| permit_number := Some "P-1"; department := Some "civil";
              responsibility_areas := Some "NCU-1";
              workflow_state := Some "closed";
              created_date := None |}).
  reflexivity.
Defined.

(** On the sample, with all four departments selected, the record without
    a Department is dropped. *)
Lemma all_departments_selected_drops_missing_witness :
  department_filter (department_options sample_subset) sample_subset
  = List.filter (fun r => notna (department r)) sample_subset.
Proof.
  apply (all_departments_selected_drops_missing sample_subset sample_subset).
  - intros r Hr. exact Hr.
  - vm_compute. discriminate.
Defined.

(** HDPE on the sample. *)
Lemma default_plant_rule_is_substring_test_witness :
  plant_df "HDPE" (map (with_area map_area_model) sample_subset)
  = Some (List.filter (fun x => contains_ignoring_case "HDPE" (areas_of x))
                      (map (with_area map_area_model) sample_subset)).
Proof.
  apply (default_plant_rule_is_substring_test "HDPE").
  - right. left. reflexivity.
  - discriminate.
  - discriminate.
  - discriminate.
Defined.

(** The sample as a [plant_df]: four of its five rows have a Department. *)
Lemma plantwise_total_counts_rows_with_department_witness :
  exists groups,
    plantwise_summary (map (with_area map_area_model) sample_subset)
    = Some (groups
            ++ [("TOTAL", EmptyString,
                 count_if (fun x => notna (department (base x)))
                          (map (with_area map_area_model) sample_subset))])%list
    /\ List.NoDup (map fst groups)
    /\ forall a d n,
         In (a, d, n) groups ->
         n = count_if (fun x => String.eqb (Area x) a
                                && series_eq (department (base x)) d)
                      (map (with_area map_area_model) sample_subset)
         /\ 1 <= n.
Proof.
  apply (plantwise_total_counts_rows_with_department
           (map (with_area map_area_model) sample_subset)).
  discriminate.
Defined.

(** What the sample shows of the edges above.  A Closed record without a
    Department, alone in its Area, has no row and is not in the CLOSED
    total; the plant-wise total leaves out the row without a Department. *)
Example closed_record_without_row :
  let r := {| permit_number := Some "P-7"; department := None;
              responsibility_areas := Some "PP-9";
              workflow_state := Some "CLOSED";
              created_date := None |} in
  Closed r = true
  /\ final_table (map (with_area map_area_model) [r])
     = Some {| header := "RESPONSIBILITY AREAS";
               columns := (dept_cols ++ ["CLOSED"; "EXPIRED"; "PENDING CLOSURE"])%list;
               rows := [("TOTAL", [0; 0; 0; 0; 0; 0; 0; 0; 0; 0])] |}.
Proof.
  split; reflexivity.
Qed.

Example plantwise_summary_sample :
  plantwise_summary (map (with_area map_area_model) sample_subset)
  = Some [("CPP", "FIRE", 1); ("NCU", "CIVIL", 1); ("OTHERS", "MECHANICAL", 1);
          ("PP", "CIVIL", 1); ("TOTAL", EmptyString, 4)].
Proof.
  reflexivity.
Qed.

(** An administrator adds a user and removes it again: the store is back
    to what it was, in memory and on file. *)
Example admin_adds_and_removes :
  let w0 := fst (fst (authenticate digest_model "admin" "admin123" sample_world)) in
  let w1 := session digest_model
              [OnDashboard (SubmitAddUser "eve" "Eve" "pw2" "user");
               OnDashboard (SubmitRemoveUser (Some "eve"))] w0 in
  USERS w1 = USERS w0 /\ user_db w1 = Some (USERS w0)
  /\ removable_users w0 = {[ "bob" ]}.
Proof.
  vm_compute. repeat split.
Qed.
